(** * EverydayElastic: the copilot page and its chat protocol

    A shallow embedding of [frontend/src/app/copilot/page.tsx].  The React
    component is a state machine: [useState] cells form the record [State],
    every handler is a function from the rendered state to the next one, and
    the [async] handler [handleSubmit] is cut at its [await]: the part before
    it issues the request, the part after it runs when the fetch settles, on
    whatever the state is by then (the code uses functional updates
    [setMessages(prev => ...)] for exactly that reason). *)

From Stdlib Require Import List String Ascii Bool NArith Arith Lia.
From Stdlib Require Import DecimalString.
Import ListNotations.
Local Open Scope string_scope.
Local Open Scope list_scope.

(** ** Strings and arrays as the JavaScript runtime has them *)

(** A JavaScript string is represented by its UTF-8 encoding, one [ascii]
    per byte. *)

(** [String.prototype.includes]. *)
Fixpoint includes (s sub : string) : bool :=
  String.prefix sub s
  || match s with
     | EmptyString => false
     | String _ rest => includes rest sub
     end.

(** The white space and line terminators that [trim] strips, by the length
    of their encoding.  One byte: TAB, LF, VT, FF, CR, SP. *)
Definition isWhiteSpace (c : ascii) : bool :=
  match nat_of_ascii c with
  | 9 | 10 | 11 | 12 | 13 | 32 => true
  | _ => false
  end.

(** Two bytes: U+00A0 (C2 A0). *)
Definition isWhiteSpace2 (c1 c2 : ascii) : bool :=
  ((N_of_ascii c1 =? 194) && (N_of_ascii c2 =? 160))%N.

(** Three bytes: U+1680 (E1 9A 80), U+2000 to U+200A, U+2028, U+2029 and
    U+202F (E2 80 80 to 8A, A8, A9, AF), U+205F (E2 81 9F), U+3000
    (E3 80 80) and U+FEFF (EF BB BF). *)
Definition isWhiteSpace3 (c1 c2 c3 : ascii) : bool :=
  let b1 := N_of_ascii c1 in
  let b2 := N_of_ascii c2 in
  let b3 := N_of_ascii c3 in
  (((b1 =? 225) && (b2 =? 154) && (b3 =? 128))
   || ((b1 =? 226) && (b2 =? 128)
       && (((128 <=? b3) && (b3 <=? 138)) || (b3 =? 168) || (b3 =? 169) || (b3 =? 175)))
   || ((b1 =? 226) && (b2 =? 129) && (b3 =? 159))
   || ((b1 =? 227) && (b2 =? 128) && (b3 =? 128))
   || ((b1 =? 239) && (b2 =? 187) && (b3 =? 191)))%N.

Fixpoint trimStart (s : string) : string :=
  match s with
  | String c1 r1 =>
      if isWhiteSpace c1 then trimStart r1
      else
        match r1 with
        | String c2 r2 =>
            if isWhiteSpace2 c1 c2 then trimStart r2
            else
              match r2 with
              | String c3 r3 => if isWhiteSpace3 c1 c2 c3 then trimStart r3 else s
              | EmptyString => s
              end
        | EmptyString => s
        end
  | EmptyString => EmptyString
  end.

(** The string is a sequence of white space characters. *)
Fixpoint allWhiteSpace (s : string) : bool :=
  match s with
  | String c1 r1 =>
      if isWhiteSpace c1 then allWhiteSpace r1
      else
        match r1 with
        | String c2 r2 =>
            if isWhiteSpace2 c1 c2 then allWhiteSpace r2
            else
              match r2 with
              | String c3 r3 => isWhiteSpace3 c1 c2 c3 && allWhiteSpace r3
              | EmptyString => false
              end
        | EmptyString => false
        end
  | EmptyString => true
  end.

(** What is kept of the tail, with the byte before it, unless that is white
    space through and through. *)
Fixpoint trimEnd (s : string) : string :=
  match s with
  | String c rest =>
      let kept := String c (trimEnd rest) in
      if allWhiteSpace kept then EmptyString else kept
  | EmptyString => EmptyString
  end.

(** [String.prototype.trim]. *)
Definition trim (s : string) : string := trimEnd (trimStart s).

(** The rest of the string after the white space character at its head, if
    there is one. *)
Definition dropWhiteSpace (s : string) : option string :=
  match s with
  | String c1 r1 =>
      if isWhiteSpace c1 then Some r1
      else
        match r1 with
        | String c2 r2 =>
            if isWhiteSpace2 c1 c2 then Some r2
            else
              match r2 with
              | String c3 r3 => if isWhiteSpace3 c1 c2 c3 then Some r3 else None
              | EmptyString => None
              end
        | EmptyString => None
        end
  | EmptyString => None
  end.

(** [`${n}`] for a non-negative integer. *)
Definition decimal (n : N) : string := NilEmpty.string_of_uint (N.to_uint n).

(** [Array.prototype.findLast]. *)
Definition findLast {A} (p : A -> bool) (l : list A) : option A :=
  find p (rev l).

(** [Array.prototype.findIndex]: the first index whose element satisfies [p],
    counted from [i]; [None] stands for the -1 of JavaScript, which is never
    equal to an index. *)
Fixpoint findIndexFrom {A} (p : A -> bool) (l : list A) (i : nat) : option nat :=
  match l with
  | [] => None
  | x :: rest => if p x then Some i else findIndexFrom p rest (S i)
  end.

Definition findIndex {A} (p : A -> bool) (l : list A) : option nat :=
  findIndexFrom p l 0.

(** [Array.prototype.filter] with the three-argument callback
    [(element, index, self)]. *)
Fixpoint filterFrom {A} (p : A -> nat -> bool) (l : list A) (i : nat) : list A :=
  match l with
  | [] => []
  | x :: rest => if p x i then x :: filterFrom p rest (S i) else filterFrom p rest (S i)
  end.

Definition filterIndexed {A} (p : A -> nat -> list A -> bool) (self : list A) : list A :=
  filterFrom (fun x i => p x i self) self 0.

Definition optNatEqb (i : nat) (j : option nat) : bool :=
  match j with
  | Some k => Nat.eqb i k
  | None => false
  end.

(** Truthiness of a [string | null] value. *)
Definition truthy (s : option string) : bool :=
  match s with
  | Some v => negb (v =? "")
  | None => false
  end.

Definition optStringEqb (a : option string) (b : string) : bool :=
  match a with
  | Some v => v =? b
  | None => false
  end.

(** ** Data model (the TypeScript interfaces of the page) *)

Inductive Role := user | assistant | system.

Definition isUser (r : Role) : bool :=
  match r with user => true | _ => false end.

(** [unknown] payload values, as JSON delivers them; a number is kept as its
    literal. *)
Unset Elimination Schemes.
Inductive Json :=
| JNull
| JBool (b : bool)
| JNumber (literal : string)
| JString (s : string)
| JArray (items : list Json)
| JObject (fields : list (string * Json)).
Set Elimination Schemes.

Record FollowUpAction := {
  label : string;
  action : string;
  payload : list (string * Json)
}.

Record ActionResponse := {
  status : string;
  message : string
}.

Module RetrievalSource.
Record t := {
  id : string;
  title : string;
  snippet : option string;
  uri : option string;
  score : option string;
  metadata : option (list (string * string))
}.
End RetrievalSource.

Module ChatMessage.
Record t := {
  role : Role;
  content : string;
  timestamp : string;
  sources : option (list string);
  followUps : option (list FollowUpAction);
  references : option (list RetrievalSource.t)
}.
End ChatMessage.

Module ChatResponse.
Record t := {
  session_id : string;
  reply : ChatMessage.t;
  sources : list string;
  references : option (list RetrievalSource.t);
  follow_ups : list FollowUpAction
}.
End ChatResponse.

Module Conversation.
Record t := {
  id : string;
  title : string;
  messages : list ChatMessage.t;
  sessionId : option string;
  lastUpdated : string
}.
End Conversation.

(** The body of [POST /chat/completions]; [JSON.stringify] leaves the key
    [session_id] out when the session id is [undefined]. *)
Module ChatRequest.
Record t := {
  session_id : option string;
  messages : list ChatMessage.t;
  locale : string
}.
End ChatRequest.

(** ** Component state: one field per [useState] cell the handlers touch *)

Record State := {
  conversations : list Conversation.t;
  currentConversationId : option string;
  messages : list ChatMessage.t;
  sessionId : option string;
  input : string;
  locale : string;
  isLoading : bool;
  error : option string;
  actionFeedback : option string;
  actionLoading : bool;
  retryCount : nat
}.

Definition setConversations (v : list Conversation.t) (s : State) : State :=
  {| conversations := v; currentConversationId := currentConversationId s;
     messages := messages s; sessionId := sessionId s; input := input s;
     locale := locale s; isLoading := isLoading s; error := error s;
     actionFeedback := actionFeedback s; actionLoading := actionLoading s;
     retryCount := retryCount s |}.

Definition setCurrentConversationId (v : option string) (s : State) : State :=
  {| conversations := conversations s; currentConversationId := v;
     messages := messages s; sessionId := sessionId s; input := input s;
     locale := locale s; isLoading := isLoading s; error := error s;
     actionFeedback := actionFeedback s; actionLoading := actionLoading s;
     retryCount := retryCount s |}.

Definition setMessages (v : list ChatMessage.t) (s : State) : State :=
  {| conversations := conversations s; currentConversationId := currentConversationId s;
     messages := v; sessionId := sessionId s; input := input s;
     locale := locale s; isLoading := isLoading s; error := error s;
     actionFeedback := actionFeedback s; actionLoading := actionLoading s;
     retryCount := retryCount s |}.

Definition setSessionId (v : option string) (s : State) : State :=
  {| conversations := conversations s; currentConversationId := currentConversationId s;
     messages := messages s; sessionId := v; input := input s;
     locale := locale s; isLoading := isLoading s; error := error s;
     actionFeedback := actionFeedback s; actionLoading := actionLoading s;
     retryCount := retryCount s |}.

Definition setInput (v : string) (s : State) : State :=
  {| conversations := conversations s; currentConversationId := currentConversationId s;
     messages := messages s; sessionId := sessionId s; input := v;
     locale := locale s; isLoading := isLoading s; error := error s;
     actionFeedback := actionFeedback s; actionLoading := actionLoading s;
     retryCount := retryCount s |}.

Definition setIsLoading (v : bool) (s : State) : State :=
  {| conversations := conversations s; currentConversationId := currentConversationId s;
     messages := messages s; sessionId := sessionId s; input := input s;
     locale := locale s; isLoading := v; error := error s;
     actionFeedback := actionFeedback s; actionLoading := actionLoading s;
     retryCount := retryCount s |}.

Definition setError (v : option string) (s : State) : State :=
  {| conversations := conversations s; currentConversationId := currentConversationId s;
     messages := messages s; sessionId := sessionId s; input := input s;
     locale := locale s; isLoading := isLoading s; error := v;
     actionFeedback := actionFeedback s; actionLoading := actionLoading s;
     retryCount := retryCount s |}.

Definition setActionFeedback (v : option string) (s : State) : State :=
  {| conversations := conversations s; currentConversationId := currentConversationId s;
     messages := messages s; sessionId := sessionId s; input := input s;
     locale := locale s; isLoading := isLoading s; error := error s;
     actionFeedback := v; actionLoading := actionLoading s;
     retryCount := retryCount s |}.

Definition setActionLoading (v : bool) (s : State) : State :=
  {| conversations := conversations s; currentConversationId := currentConversationId s;
     messages := messages s; sessionId := sessionId s; input := input s;
     locale := locale s; isLoading := isLoading s; error := error s;
     actionFeedback := actionFeedback s; actionLoading := v;
     retryCount := retryCount s |}.

Definition setRetryCount (v : nat) (s : State) : State :=
  {| conversations := conversations s; currentConversationId := currentConversationId s;
     messages := messages s; sessionId := sessionId s; input := input s;
     locale := locale s; isLoading := isLoading s; error := error s;
     actionFeedback := actionFeedback s; actionLoading := actionLoading s;
     retryCount := v |}.

(** Setter calls read top to bottom, as in the handlers. *)
Notation "s |> f" := (f s) (at level 45, left associativity, only parsing).

Definition maxRetries : nat := 2.

(** The delay handed to [setTimeout] before [controller.abort()], in ms. *)
Definition abortDelay : N := 30000.

(** ** What the environment supplies *)

(** An exception value as the [catch] clause sees it: an [Error] object with
    its message, or anything else ([err instanceof Error] is false). *)
Inductive Thrown :=
| ErrorObject (msg : string)
| NotAnError.

(** How the awaited part of the [try] block ends: a 2xx response whose body
    parses, a non-OK response with its status and body text, or an exception
    (the fetch rejects, or reading the body does). *)
Inductive FetchOutcome :=
| RespOk (data : ChatResponse.t)
| RespNotOk (statusCode : N) (errorText : string)
| Threw (err : Thrown).

(** The network as the page meets it.  [elapsed] is the time, in
    milliseconds, after which the promise of [fetch] settles, that is, the
    response arrives or the fetch is rejected.  With [Settles] the awaited
    part then runs to its [outcome], however long the body takes to read;
    with [NeverSettles] no response ever arrives; with [BodyStalls] the
    response arrives and its body never does, so that [response.text()] or
    [response.json()] stays pending. *)
Inductive Network :=
| Settles (elapsed : N) (outcome : FetchOutcome)
| NeverSettles
| BodyStalls (elapsed : N).

Definition isFailure (o : FetchOutcome) : bool :=
  match o with
  | RespOk _ => false
  | _ => true
  end.

Section CopilotPage.

(** [new Date().toISOString()] at the time the module is evaluated. *)
Variable moduleLoadTime : string.

(** The message of the [AbortError] with which the engine rejects an
    aborted fetch. *)
Variable abortMessage : string.

Definition DEFAULT_ASSISTANT_MESSAGE : ChatMessage.t :=
  {| ChatMessage.role := assistant;
     ChatMessage.content := "Hi! I'm EverydayElastic, your ops copilot. Ask me about active incidents, policies, runbooks, or chat history and I'll cite relevant sources.";
     ChatMessage.timestamp := moduleLoadTime;
     ChatMessage.sources := None;
     ChatMessage.followUps := None;
     ChatMessage.references := None |}.

(** The [useState] initial values. *)
Definition initialState : State :=
  {| conversations := [];
     currentConversationId := None;
     messages := [DEFAULT_ASSISTANT_MESSAGE];
     sessionId := None;
     input := "";
     locale := "en-US";
     isLoading := false;
     error := None;
     actionFeedback := None;
     actionLoading := false;
     retryCount := 0 |}.

(** *** Conversation list *)

(** The filter of the load effect:
    [index === self.findIndex(c => c.id === conv.id)]. *)
Definition uniqueConvs (parsed : list Conversation.t) : list Conversation.t :=
  filterIndexed
    (fun conv index self =>
       optNatEqb index
         (findIndex (fun c => Conversation.id c =? Conversation.id conv) self))
    parsed.

(** The load effect; [saved] is [None] when the storage key is absent or
    its content does not parse (the [catch] only logs). *)
Definition loadConversations (saved : option (list Conversation.t)) (st : State) : State :=
  match saved with
  | Some parsed =>
      let st1 := st |> setConversations (uniqueConvs parsed) in
      match uniqueConvs parsed with
      | latest :: _ =>
          st1 |> setCurrentConversationId (Some (Conversation.id latest))
              |> setMessages (Conversation.messages latest)
              |> setSessionId (Conversation.sessionId latest)
      | [] => st1
      end
  | None => st
  end.

(** [`conv-${Date.now()}-${Math.random().toString(36).substr(2, 9)}`];
    [now] is the clock reading and [rnd] the base-36 digits drawn. *)
Definition newConversationId (now : N) (rnd : string) : string :=
  ("conv-" ++ decimal now ++ "-" ++ rnd)%string.

Definition newConversation (now : N) (rnd iso : string) : Conversation.t :=
  {| Conversation.id := newConversationId now rnd;
     Conversation.title := "New Chat";
     Conversation.messages := [DEFAULT_ASSISTANT_MESSAGE];
     Conversation.sessionId := None;
     Conversation.lastUpdated := iso |}.

Definition startNewChat (now : N) (rnd iso : string) (st : State) : State :=
  let newConv := newConversation now rnd iso in
  st |> setConversations (newConv :: conversations st)
     |> setCurrentConversationId (Some (Conversation.id newConv))
     |> setMessages [DEFAULT_ASSISTANT_MESSAGE]
     |> setSessionId None
     |> setError None
     |> setActionFeedback None.

Definition hasId (convId : string) (c : Conversation.t) : bool :=
  Conversation.id c =? convId.

Definition switchConversation (convId : string) (st : State) : State :=
  match find (hasId convId) (conversations st) with
  | Some conv =>
      st |> setCurrentConversationId (Some (Conversation.id conv))
         |> setMessages (Conversation.messages conv)
         |> setSessionId (Conversation.sessionId conv)
         |> setError None
         |> setActionFeedback None
  | None => st
  end.

(** [deleteConversation]: the updater computes [filtered] and, when the
    deleted conversation is the current one, calls the other setters.  With
    no conversation left it calls [startNewChat], whose [setConversations]
    is then issued from inside the updater; React leaves the order of the
    two updates open (updaters are meant to be pure).  When it runs the
    updater at once, inside the call of [setConversations] ([eager]), the
    nested update enters the queue first and the updater's result, already
    computed, replaces the list after it; otherwise the nested update is
    queued behind the updater and prepends to [filtered]. *)
Definition deleteConversation (eager : bool) (convId : string) (now : N)
    (rnd iso : string) (st : State) : State :=
  let filtered := filter (fun c => negb (hasId convId c)) (conversations st) in
  if optStringEqb (currentConversationId st) convId then
    match filtered with
    | next :: _ =>
        st |> setConversations filtered
           |> setCurrentConversationId (Some (Conversation.id next))
           |> setMessages (Conversation.messages next)
           |> setSessionId (Conversation.sessionId next)
    | [] =>
        if eager then
          st |> startNewChat now rnd iso
             |> setConversations filtered
        else
          st |> setConversations filtered
             |> startNewChat now rnd iso
    end
  else st |> setConversations filtered.

Definition clearedConversation (c : Conversation.t) : Conversation.t :=
  {| Conversation.id := Conversation.id c;
     Conversation.title := Conversation.title c;
     Conversation.messages := [DEFAULT_ASSISTANT_MESSAGE];
     Conversation.sessionId := None;
     Conversation.lastUpdated := Conversation.lastUpdated c |}.

Definition clearConversation (st : State) : State :=
  let st1 :=
    if truthy (currentConversationId st) then
      st |> setConversations
              (map (fun conv =>
                      if optStringEqb (currentConversationId st) (Conversation.id conv)
                      then clearedConversation conv else conv)
                   (conversations st))
    else st in
  st1 |> setMessages [DEFAULT_ASSISTANT_MESSAGE]
      |> setSessionId None
      |> setError None
      |> setActionFeedback None.

(** The title the sync effect gives:
    [messages.find(m => m.role === 'user')?.content.slice(0, 50) || 'New Chat']. *)
Definition syncedTitle (c : Conversation.t) (msgs : list ChatMessage.t) : string :=
  if Conversation.title c =? "New Chat" then
    match find (fun m => isUser (ChatMessage.role m)) msgs with
    | Some m =>
        let t := substring 0 50 (ChatMessage.content m) in
        if t =? "" then "New Chat" else t
    | None => "New Chat"
    end
  else Conversation.title c.

(** The effect "update current conversation when messages change". *)
Definition syncConversations (iso : string) (st : State) : State :=
  if truthy (currentConversationId st) && Nat.ltb 1 (List.length (messages st)) then
    st |> setConversations
            (map (fun conv =>
                    if optStringEqb (currentConversationId st) (Conversation.id conv)
                    then {| Conversation.id := Conversation.id conv;
                            Conversation.title := syncedTitle conv (messages st);
                            Conversation.messages := messages st;
                            Conversation.sessionId := sessionId st;
                            Conversation.lastUpdated := iso |}
                    else conv)
                 (conversations st))
  else st.

(** The effects of the first commit, in source order, all closed over the
    initial render: load, then (the list of that render being empty)
    [startNewChat]. *)
Definition mount (saved : option (list Conversation.t)) (now : N) (rnd iso : string)
    : State :=
  let st1 := loadConversations saved initialState in
  if Nat.eqb (List.length (conversations initialState)) 0
  then startNewChat now rnd iso st1
  else st1.

(** *** One chat turn: [handleSubmit] *)

(** The assistant turn built from a response:
    [{...data.reply, sources, followUps, references}]. *)
Definition assistantMessage (data : ChatResponse.t) : ChatMessage.t :=
  {| ChatMessage.role := ChatMessage.role (ChatResponse.reply data);
     ChatMessage.content := ChatMessage.content (ChatResponse.reply data);
     ChatMessage.timestamp := ChatMessage.timestamp (ChatResponse.reply data);
     ChatMessage.sources := Some (ChatResponse.sources data);
     ChatMessage.followUps := Some (ChatResponse.follow_ups data);
     ChatMessage.references := ChatResponse.references data |}.

Definition newUserMessage (iso : string) (st : State) : ChatMessage.t :=
  {| ChatMessage.role := user;
     ChatMessage.content := trim (input st);
     ChatMessage.timestamp := iso;
     ChatMessage.sources := None;
     ChatMessage.followUps := None;
     ChatMessage.references := None |}.

Definition optimisticMessages (retry : bool) (iso : string) (st : State)
    : list ChatMessage.t :=
  if retry then messages st else messages st ++ [newUserMessage iso st].

(** [handleSubmit] up to the [await]: [None] is the early return on a blank
    input; otherwise the state updates made so far and the request sent. *)
Definition handleSubmit_send (retry : bool) (iso : string) (st : State)
    : option (State * ChatRequest.t) :=
  if (trim (input st) =? "") && negb retry then None
  else
    let st1 :=
      if retry then st
      else st |> setMessages (optimisticMessages retry iso st)
              |> setInput "" in
    Some (st1 |> setIsLoading true
              |> setError None
              |> setRetryCount (if retry then retryCount st + 1 else 0),
          {| ChatRequest.session_id := sessionId st;
             ChatRequest.messages := optimisticMessages retry iso st;
             ChatRequest.locale := locale st |}).

(** The race between the fetch and the [setTimeout] armed just before it:
    a fetch still pending when the timer fires is aborted and rejects.  The
    timer is cleared as soon as the response has arrived, so the reading of
    the body is not bounded: [None] is an awaited part that never ends.
    [elapsed < abortDelay] stands for the response arriving before the timer
    fires; at equal times the timer is taken to come first. *)
Definition awaitFetch (net : Network) : option FetchOutcome :=
  match net with
  | Settles elapsed outcome =>
      if (elapsed <? abortDelay)%N then Some outcome
      else Some (Threw (ErrorObject abortMessage))
  | NeverSettles => Some (Threw (ErrorObject abortMessage))
  | BodyStalls elapsed =>
      if (elapsed <? abortDelay)%N then None
      else Some (Threw (ErrorObject abortMessage))
  end.

(** What reaches the [catch] clause, if anything. *)
Definition thrownBy (o : FetchOutcome) : option Thrown :=
  match o with
  | RespOk _ => None
  | RespNotOk statusCode errorText =>
      Some (ErrorObject
              ("Request failed with status " ++ decimal statusCode ++ ": " ++ errorText)%string)
  | Threw err => Some err
  end.

Definition errorMessageOf (err : Thrown) : string :=
  match err with
  | ErrorObject msg => msg
  | NotAnError => "Unknown error occurred"
  end.

Definition timeoutText : string :=
  "Request timed out. The server took too long to respond. Please try again.".

Definition unreachableText : string :=
  "Cannot reach the backend server. Please check your connection and ensure the API is running.".

(** The [catch] clause. *)
Definition reportFailure (err : Thrown) (st : State) : State :=
  let errorMessage := errorMessageOf err in
  if includes errorMessage "aborted" then st |> setError (Some timeoutText)
  else if includes errorMessage "Failed to fetch" then st |> setError (Some unreachableText)
  else st |> setError (Some ("Error: " ++ errorMessage)%string).

(** [handleSubmit] after the [await], run on the state [st] current when the
    fetch settles; [retry] is the argument captured by the closure. *)
Definition handleSubmit_settle (retry : bool) (o : FetchOutcome) (st : State) : State :=
  match o with
  | RespOk data =>
      st |> setSessionId (Some (ChatResponse.session_id data))
         |> setMessages
              (if retry then removelast (messages st) ++ [assistantMessage data]
               else messages st ++ [assistantMessage data])
         |> setRetryCount 0
         |> setIsLoading false
  | _ =>
      match thrownBy o with
      | Some err => st |> reportFailure err |> setIsLoading false
      | None => st |> setIsLoading false
      end
  end.

(** The part after the [await], if the awaited part ever ends. *)
Definition resume (retry : bool) (awaited : option FetchOutcome) (st : State) : State :=
  match awaited with
  | Some o => handleSubmit_settle retry o st
  | None => st
  end.

(** A whole turn with nothing else happening while the request is in
    flight: the final state and the requests sent. *)
Definition handleSubmit (retry : bool) (iso : string) (net : Network) (st : State)
    : State * list ChatRequest.t :=
  match handleSubmit_send retry iso st with
  | Some (st1, req) => (resume retry (awaitFetch net) st1, [req])
  | None => (st, [])
  end.

(** [retryLastRequest] up to the [await] of the [handleSubmit] it calls;
    that call still sees the rendered state [st]. *)
Definition retryLastRequest_send (iso : string) (st : State)
    : option (State * ChatRequest.t) :=
  match findLast (fun m => isUser (ChatMessage.role m)) (messages st) with
  | Some lastUserMessage =>
      if Nat.ltb (retryCount st) maxRetries then
        match handleSubmit_send true iso st with
        | Some (st1, req) =>
            Some (st1 |> setInput (ChatMessage.content lastUserMessage), req)
        | None => None
        end
      else None
  | None => None
  end.

Definition retryLastRequest (iso : string) (net : Network) (st : State)
    : State * list ChatRequest.t :=
  match retryLastRequest_send iso st with
  | Some (st1, req) => (resume true (awaitFetch net) st1, [req])
  | None => (st, [])
  end.

(** The Retry button is rendered inside the error banner. *)
Definition retryOffered (st : State) : bool :=
  truthy (error st) && Nat.ltb (retryCount st) maxRetries.

(** [handleFollowUp], with [None] for a failed action call. *)
Definition handleFollowUp (a : FollowUpAction) (o : option ActionResponse) (st : State)
    : State :=
  let st1 := st |> setActionLoading true |> setActionFeedback None |> setError None in
  match o with
  | Some data =>
      st1 |> setActionFeedback (Some (label a ++ ": " ++ message data)%string)
          |> setActionLoading false
  | None =>
      st1 |> setError (Some "Follow-up action failed. Check logs and try again.")
          |> setActionLoading false
  end.

End CopilotPage.

(** ** The answer generator (backend) *)

Module AnswerGenerator.

(** Modelled from the spec: a RerankedHit (§3), a retrieval hit with the
    reranker's score; the backend that defines it is not among the
    sources.  Scores are kept as literals. *)
Record RerankedHit := {
  id : string;
  title : string;
  snippet : string;
  score : string;
  uri : string;
  metadata : list (string * string);
  rerankScore : string
}.

(** Modelled from the spec: an element of an EvidenceSet (§3), a hit tagged
    with the citation marker used in generation. *)
Record Evidence := {
  marker : nat;
  hit : RerankedHit
}.

(** Modelled from the spec: the EvidenceSet (§3), an ordered list of tagged
    hits. *)
Definition EvidenceSet := list Evidence.

(** Modelled from the spec: generated text (§4.5, glossary), prose spans
    interleaved with citation markers, each marker linking the span to one
    evidence document. *)
Inductive Segment :=
| Prose (s : string)
| Cite (marker : nat).

(** Modelled from the spec: the text of an answer. *)
Definition AnswerText := list Segment.

(** Modelled from the spec: GroundedAnswer (§3): the text, the markers it
    references and the source identifiers of the citations used. *)
Record GroundedAnswer := {
  text : AnswerText;
  citations : list nat;
  sources : list string
}.

(** Modelled from the spec: the failure of the generator (§4.5, §7). *)
Inductive GenerationError := GenerationUnavailable.

(** Modelled from the spec: the citation markers appearing in a text. *)
Definition markersIn (t : AnswerText) : list nat :=
  flat_map (fun s => match s with Cite m => [m] | Prose _ => [] end) t.

(** Modelled from the spec: whether a marker is present in the
    EvidenceSet. *)
Definition present (ev : EvidenceSet) (m : nat) : bool :=
  existsb (Nat.eqb m) (map marker ev).

(** Modelled from the spec: the validation of §4.5, "any citation marker
    not present in the EvidenceSet ... such markers are stripped rather
    than surfaced", the claim around it staying, uncited. *)
Definition validate (ev : EvidenceSet) (t : AnswerText) : AnswerText :=
  filter (fun s => match s with Cite m => present ev m | Prose _ => true end) t.

(** Modelled from the spec: the source identifiers corresponding to the
    citations used. *)
Definition sourcesOf (ev : EvidenceSet) (used : list nat) : list string :=
  map (fun e => id (hit e))
      (filter (fun e => existsb (Nat.eqb (marker e)) used) ev).

(** Modelled from the spec: [generate] of §4.5.  The text generation
    capability is the opaque [model] (§6), which sees the query, the
    history, the evidence and the locale and returns text, or nothing on a
    transport or timeout error. *)
Definition generate
    (model : string -> list ChatMessage.t -> EvidenceSet -> string -> option AnswerText)
    (query : string) (history : list ChatMessage.t) (ev : EvidenceSet)
    (locale : string) : GroundedAnswer + GenerationError :=
  match model query history ev locale with
  | Some raw =>
      let t := validate ev raw in
      inl {| text := t;
             citations := nodup Nat.eq_dec (markersIn t);
             sources := sourcesOf ev (markersIn t) |}
  | None => inr GenerationUnavailable
  end.

End AnswerGenerator.

(** ** Sample data *)

(** A response as the backend sends it. *)
Definition sampleReply : ChatResponse.t :=
  {| ChatResponse.session_id := "s1";
     ChatResponse.reply :=
       {| ChatMessage.role := assistant;
          ChatMessage.content := "Two Sev-1 incidents are open.";
          ChatMessage.timestamp := "2025-01-01T00:00:04.000Z";
          ChatMessage.sources := None;
          ChatMessage.followUps := None;
          ChatMessage.references := None |};
     ChatResponse.sources := ["doc-1"];
     ChatResponse.references := None;
     ChatResponse.follow_ups := [] |}.



(** A conversation as an earlier visit left it in the storage. *)
Definition savedConversation : Conversation.t :=
  {| Conversation.id := "conv-7-old";
     Conversation.title := "What is the refund policy?";
     Conversation.messages :=
       [ {| ChatMessage.role := assistant;
            ChatMessage.content := "Hi!";
            ChatMessage.timestamp := "2024-12-31T10:00:00.000Z";
            ChatMessage.sources := None;
            ChatMessage.followUps := None;
            ChatMessage.references := None |};
         {| ChatMessage.role := user;
            ChatMessage.content := "What is the refund policy?";
            ChatMessage.timestamp := "2024-12-31T10:00:05.000Z";
            ChatMessage.sources := None;
            ChatMessage.followUps := None;
            ChatMessage.references := None |};
         assistantMessage sampleReply ];
     Conversation.sessionId := Some "s-old";
     Conversation.lastUpdated := "2024-12-31T10:00:09.000Z" |}.

(** ** A request overtaken by "New chat" *)

Section Overtaken.

Variable moduleLoadTime : string.

(** The page is opened on an empty storage and a first question is typed
    and submitted in the conversation created by the mount. *)
Definition askedInA : option (State * ChatRequest.t) :=
  mount moduleLoadTime None 1000 "aaa" "2025-01-01T00:00:00.000Z"
    |> setInput "Show me Sev-1 incidents"
    |> handleSubmit_send false "2025-01-01T00:00:01.000Z".

(** While that request is in flight the user clicks "New chat". *)
Definition openedB : option State :=
  option_map
    (fun sent => fst sent
                   |> syncConversations "2025-01-01T00:00:01.100Z"
                   |> startNewChat moduleLoadTime 2000 "bbb" "2025-01-01T00:00:02.000Z")
    askedInA.

(** Then the response to the first request arrives, and the sync effect
    runs on the re-render. *)
Definition answeredLate : option State :=
  option_map
    (fun st => st |> handleSubmit_settle false (RespOk sampleReply)
                  |> syncConversations "2025-01-01T00:00:04.100Z")
    openedB.

(** The first question asked in the new conversation. *)
Definition askedInB : option (State * ChatRequest.t) :=
  match answeredLate with
  | Some st =>
      st |> setInput "What's the runbook for payment gateway timeouts?"
         |> handleSubmit_send false "2025-01-01T00:00:09.000Z"
  | None => None
  end.

End Overtaken.

(** ** Auxiliary definitions for the statements *)

Definition sameId (x c : Conversation.t) : bool :=
  Conversation.id c =? Conversation.id x.

(** No conversation of [pre] has the id of [x]. *)
Definition unseen (pre : list Conversation.t) (x : Conversation.t) : bool :=
  forallb (fun c => negb (sameId x c)) pre.

(** The list [l] read after [pre], keeping what [pre] and the part already
    read do not hold. *)
Fixpoint firstOccurrences (pre l : list Conversation.t) : list Conversation.t :=
  match l with
  | [] => []
  | x :: rest =>
      if unseen pre x then x :: firstOccurrences (pre ++ [x]) rest
      else firstOccurrences (pre ++ [x]) rest
  end.

(** A turn played to its end before the next one starts: a question typed
    and submitted, or the Retry button. *)
Inductive Turn :=
| Ask (text iso : string) (net : Network)
| RetryLast (iso : string) (net : Network).

Definition networkOf (t : Turn) : Network :=
  match t with
  | Ask _ _ net => net
  | RetryLast _ net => net
  end.

Definition playTurn (abortMessage : string) (t : Turn) (st : State)
    : State * list ChatRequest.t :=
  match t with
  | Ask text iso net => handleSubmit abortMessage false iso net (setInput text st)
  | RetryLast iso net => retryLastRequest abortMessage iso net st
  end.

(** The requests sent over a sequence of turns, each with its outcome, if it
    has one. *)
Fixpoint play (abortMessage : string) (turns : list Turn) (st : State)
    : list (ChatRequest.t * option FetchOutcome) :=
  match turns with
  | [] => []
  | t :: rest =>
      map (fun req => (req, awaitFetch abortMessage (networkOf t)))
          (snd (playTurn abortMessage t st))
      ++ play abortMessage rest (fst (playTurn abortMessage t st))
  end.

(** Every request of the log carries the session id of the latest success
    before it, [sid] standing for what was stored at the start. *)
Fixpoint echoes (sid : option string) (log : list (ChatRequest.t * option FetchOutcome))
    : Prop :=
  match log with
  | [] => True
  | (req, o) :: rest =>
      ChatRequest.session_id req = sid
      /\ echoes (match o with
                 | Some (RespOk data) => Some (ChatResponse.session_id data)
                 | _ => sid
                 end) rest
  end.

(** A model that cites one marker of the evidence and one that is not. *)
Definition fabricatingModel (query : string) (history : list ChatMessage.t)
    (ev : AnswerGenerator.EvidenceSet) (locale : string)
    : option AnswerGenerator.AnswerText :=
  Some [AnswerGenerator.Prose "Restart the gateway pods";
        AnswerGenerator.Cite 1;
        AnswerGenerator.Prose "then page the on-call";
        AnswerGenerator.Cite 7].

Definition sampleHit (i : string) : AnswerGenerator.RerankedHit :=
  {| AnswerGenerator.id := i;
     AnswerGenerator.title := "Payment gateway timeouts";
     AnswerGenerator.snippet := "Restart the gateway pods.";
     AnswerGenerator.score := "12.5";
     AnswerGenerator.uri := "kb://runbooks/payments";
     AnswerGenerator.metadata := [("document-type", "runbook")];
     AnswerGenerator.rerankScore := "0.91" |}.

Definition sampleEvidence : AnswerGenerator.EvidenceSet :=
  [ {| AnswerGenerator.marker := 1; AnswerGenerator.hit := sampleHit "doc-1" |};
    {| AnswerGenerator.marker := 2; AnswerGenerator.hit := sampleHit "doc-2" |} ].

(** ** The rest of the page *)

(** The save effect: [localStorage.setItem] when the list is not empty.
    [stored] is the value under the key, as [JSON.parse] gives it back. *)
Definition saveConversations (st : State) (stored : option (list Conversation.t))
    : option (list Conversation.t) :=
  if Nat.ltb 0 (List.length (conversations st)) then Some (conversations st) else stored.

(** A [Set<string>] as the list of its members in insertion order. *)
Definition setHas (k : string) (s : list string) : bool :=
  existsb (String.eqb k) s.

Definition setAdd (k : string) (s : list string) : list string :=
  if setHas k s then s else s ++ [k].

Definition setDelete (k : string) (s : list string) : list string :=
  filter (fun x => negb (x =? k)%string) s.

(** The updater of [toggleSourceExpansion], on the previous set. *)
Definition toggleSourceExpansion (messageTimestamp : string) (prev : list string)
    : list string :=
  let newSet := prev in
  if setHas messageTimestamp newSet then setDelete messageTimestamp newSet
  else setAdd messageTimestamp newSet.

(** [disabled={isLoading || !input.trim()}] of the submit button. *)
Definition submitDisabled (st : State) : bool :=
  isLoading st || (trim (input st) =? "")%string.

(** [messages.length > 1 && ...] around the Clear button. *)
Definition clearOffered (st : State) : bool :=
  Nat.ltb 1 (List.length (messages st)).

(** *** The page as a machine *)

(** The rendered state and, for each request in flight, the [retry]
    argument its suspended [handleSubmit] holds. *)
Record Page := {
  view : State;
  inFlight : list bool
}.

Inductive Event :=
| Typed (text : string)
| Submitted (iso : string)
| RetryClicked (iso : string)
| Settled (which : nat) (o : FetchOutcome)
| NewChatClicked (now : N) (rnd iso : string)
| Switched (convId : string)
| Deleted (eager : bool) (convId : string) (now : N) (rnd iso : string)
| Cleared
| FollowedUp (a : FollowUpAction) (o : option ActionResponse)
| Rendered (iso : string).

Fixpoint dropNth {A} (n : nat) (l : list A) : list A :=
  match l, n with
  | [], _ => []
  | _ :: rest, O => rest
  | x :: rest, S k => x :: dropNth k rest
  end.

(** One event: the next page and the requests sent.  [Settled which o]
    resumes the [which]-th request in flight (none if there is no such
    request); [Rendered] is the sync effect of a render. *)
Definition step (moduleLoadTime : string) (e : Event) (p : Page)
    : Page * list ChatRequest.t :=
  let keep st := ({| view := st; inFlight := inFlight p |}, []) in
  match e with
  | Typed text => keep (setInput text (view p))
  | Submitted iso =>
      match handleSubmit_send false iso (view p) with
      | Some (st1, req) => ({| view := st1; inFlight := inFlight p ++ [false] |}, [req])
      | None => keep (view p)
      end
  | RetryClicked iso =>
      match retryLastRequest_send iso (view p) with
      | Some (st1, req) => ({| view := st1; inFlight := inFlight p ++ [true] |}, [req])
      | None => keep (view p)
      end
  | Settled which o =>
      match nth_error (inFlight p) which with
      | Some retry =>
          ({| view := handleSubmit_settle retry o (view p);
              inFlight := dropNth which (inFlight p) |}, [])
      | None => keep (view p)
      end
  | NewChatClicked now rnd iso => keep (startNewChat moduleLoadTime now rnd iso (view p))
  | Switched convId => keep (switchConversation convId (view p))
  | Deleted eager convId now rnd iso =>
      keep (deleteConversation moduleLoadTime eager convId now rnd iso (view p))
  | Cleared => keep (clearConversation moduleLoadTime (view p))
  | FollowedUp a o => keep (handleFollowUp a o (view p))
  | Rendered iso => keep (syncConversations iso (view p))
  end.

Fixpoint run (moduleLoadTime : string) (events : list Event) (p : Page) : Page :=
  match events with
  | [] => p
  | e :: rest => run moduleLoadTime rest (fst (step moduleLoadTime e p))
  end.

(** The page once mounted on an empty storage. *)
Definition mountedPage (moduleLoadTime : string) (now : N) (rnd iso : string) : Page :=
  {| view := mount moduleLoadTime None now rnd iso; inFlight := [] |}.

(** An event that changes or empties the conversation on display. *)
Definition changesConversation (e : Event) : bool :=
  match e with
  | NewChatClicked _ _ _ | Switched _ | Deleted _ _ _ _ _ | Cleared => true
  | _ => false
  end.

(** The pages reached when the conversation on display is left alone while
    a request is in flight. *)
Inductive Undisturbed (moduleLoadTime : string) : Page -> Prop :=
| undisturbed_mount (now : N) (rnd iso : string) :
    Undisturbed moduleLoadTime (mountedPage moduleLoadTime now rnd iso)
| undisturbed_step (p : Page) (e : Event) :
    Undisturbed moduleLoadTime p ->
    (changesConversation e = true -> inFlight p = []) ->
    Undisturbed moduleLoadTime (fst (step moduleLoadTime e p)).

(** The list starts with the greeting. *)
Definition greeted (moduleLoadTime : string) (msgs : list ChatMessage.t) : Prop :=
  exists rest, msgs = DEFAULT_ASSISTANT_MESSAGE moduleLoadTime :: rest.

(** What holds of an undisturbed page: the greeting leads the list on
    display and every stored list, and a retry in flight finds at least two
    messages. *)
Definition greetedPage (moduleLoadTime : string) (p : Page) : Prop :=
  greeted moduleLoadTime (messages (view p))
  /\ Forall (fun c => greeted moduleLoadTime (Conversation.messages c))
            (conversations (view p))
  /\ (In true (inFlight p) -> 2 <= List.length (messages (view p))).

(** The state after a sequence of turns, each played to its end. *)
Fixpoint playState (abortMessage : string) (turns : list Turn) (st : State) : State :=
  match turns with
  | [] => st
  | t :: rest => playState abortMessage rest (fst (playTurn abortMessage t st))
  end.

(** The session id of the last success of a log, [sid] when it has none. *)
Fixpoint sessionAfter (sid : option string)
    (log : list (ChatRequest.t * option FetchOutcome)) : option string :=
  match log with
  | [] => sid
  | (_, o) :: rest =>
      sessionAfter (match o with
                    | Some (RespOk data) => Some (ChatResponse.session_id data)
                    | _ => sid
                    end) rest
  end.

(** * Properties *)

(** ** Setters and the failure branch *)

Lemma reportFailure_frame (err : Thrown) (st : State) :
  messages (reportFailure err st) = messages st
  /\ sessionId (reportFailure err st) = sessionId st
  /\ conversations (reportFailure err st) = conversations st
  /\ currentConversationId (reportFailure err st) = currentConversationId st
  /\ retryCount (reportFailure err st) = retryCount st
  /\ input (reportFailure err st) = input st
  /\ locale (reportFailure err st) = locale st.
Proof.
  unfold reportFailure.
  destruct (includes (errorMessageOf err) "aborted");
    [ | destruct (includes (errorMessageOf err) "Failed to fetch") ];
    repeat split; reflexivity.
Qed.

Lemma reportFailure_error (err : Thrown) (st : State) :
  exists msg, error (reportFailure err st) = Some msg /\ msg <> ""%string.
Proof.
  unfold reportFailure.
  destruct (includes (errorMessageOf err) "aborted");
    [ | destruct (includes (errorMessageOf err) "Failed to fetch") ];
    eexists; (split; [ reflexivity | discriminate ]).
Qed.


Lemma failure_throws (o : FetchOutcome) :
  isFailure o = true -> exists err, thrownBy o = Some err.
Proof.
  destruct o; simpl; intros H; try discriminate; eexists; reflexivity.
Qed.

Lemma settle_failure (retry : bool) (o : FetchOutcome) (st : State) :
  isFailure o = true ->
  exists err, thrownBy o = Some err
    /\ handleSubmit_settle retry o st = setIsLoading false (reportFailure err st).
Proof.
  intros H. destruct (failure_throws o H) as [err Herr].
  exists err. split; [ exact Herr | ].
  destruct o; simpl in *; try discriminate; inversion Herr; reflexivity.
Qed.

Lemma send_not_blank (iso : string) (st : State) :
  trim (input st) <> ""%string ->
  handleSubmit_send false iso st =
    Some (st |> setMessages (messages st ++ [newUserMessage iso st])
             |> setInput ""
             |> setIsLoading true
             |> setError None
             |> setRetryCount 0,
          {| ChatRequest.session_id := sessionId st;
             ChatRequest.messages := messages st ++ [newUserMessage iso st];
             ChatRequest.locale := locale st |}).
Proof.
  intros H. unfold handleSubmit_send, optimisticMessages.
  destruct (String.eqb_spec (trim (input st)) "") as [E | _]; [ contradiction | ].
  reflexivity.
Qed.

Lemma send_retry (iso : string) (st : State) :
  handleSubmit_send true iso st =
    Some (st |> setIsLoading true
             |> setError None
             |> setRetryCount (retryCount st + 1),
          {| ChatRequest.session_id := sessionId st;
             ChatRequest.messages := messages st;
             ChatRequest.locale := locale st |}).
Proof.
  unfold handleSubmit_send, optimisticMessages.
  rewrite andb_false_r. reflexivity.
Qed.

Lemma send_inv (retry : bool) (iso : string) (st st1 : State) (req : ChatRequest.t) :
  handleSubmit_send retry iso st = Some (st1, req) ->
  req = {| ChatRequest.session_id := sessionId st;
           ChatRequest.messages := optimisticMessages retry iso st;
           ChatRequest.locale := locale st |}
  /\ messages st1 = optimisticMessages retry iso st
  /\ sessionId st1 = sessionId st
  /\ conversations st1 = conversations st
  /\ currentConversationId st1 = currentConversationId st
  /\ retryCount st1 = (if retry then retryCount st + 1 else 0)
  /\ error st1 = None.
Proof.
  unfold handleSubmit_send.
  destruct ((trim (input st) =? "")%string && negb retry); [ discriminate | ].
  intros H. inversion H; subst; clear H.
  destruct retry; repeat split; reflexivity.
Qed.

(** ** The chat turn *)

(** C2.  A chat turn sends a request made of the session id (possibly
    absent), the ordered messages and the locale; when the response is a
    success, the stored session id is the one returned and the assistant
    turn put at the end of the conversation is the reply carrying exactly
    the response's sources, references and follow-ups (appended after the
    conversation on a first attempt). *)
Theorem answer_turn_shape :
  forall (retry : bool) (iso : string) (st st1 : State) (req : ChatRequest.t)
         (data : ChatResponse.t),
    handleSubmit_send retry iso st = Some (st1, req) ->
    let st2 := handleSubmit_settle retry (RespOk data) st1 in
    let turn := assistantMessage data in
    ChatRequest.session_id req = sessionId st
    /\ ChatRequest.messages req = optimisticMessages retry iso st
    /\ ChatRequest.locale req = locale st
    /\ sessionId st2 = Some (ChatResponse.session_id data)
    /\ (exists kept, messages st2 = kept ++ [turn])
    /\ (retry = false -> messages st2 = ChatRequest.messages req ++ [turn])
    /\ ChatMessage.role turn = ChatMessage.role (ChatResponse.reply data)
    /\ ChatMessage.content turn = ChatMessage.content (ChatResponse.reply data)
    /\ ChatMessage.timestamp turn = ChatMessage.timestamp (ChatResponse.reply data)
    /\ ChatMessage.sources turn = Some (ChatResponse.sources data)
    /\ ChatMessage.references turn = ChatResponse.references data
    /\ ChatMessage.followUps turn = Some (ChatResponse.follow_ups data).
Proof.
  intros retry iso st st1 req data Hsend st2 turn.
  destruct (send_inv _ _ _ _ _ Hsend) as (Hreq & Hmsgs & _).
  subst req. simpl.
  repeat split; try reflexivity.
  - subst st2. simpl. destruct retry; eexists; reflexivity.
  - intros ->. subst st2. simpl. rewrite Hmsgs. reflexivity.
Qed.

Lemma answer_turn_shape_witness :
  let st := setInput "hello" (initialState "t0") in
  exists st1 req,
    handleSubmit_send false "t1" st = Some (st1, req)
    /\ sessionId (handleSubmit_settle false (RespOk sampleReply) st1) = Some "s1"%string
    /\ messages (handleSubmit_settle false (RespOk sampleReply) st1)
       = ChatRequest.messages req ++ [assistantMessage sampleReply]
    /\ ChatMessage.sources (assistantMessage sampleReply) = Some ["doc-1"%string].
Proof.
  intros st. eexists; eexists.
  split; [ apply send_not_blank; vm_compute; discriminate | ].
  pose proof (answer_turn_shape false "t1" st _ _ sampleReply
                (send_not_blank "t1" st ltac:(vm_compute; discriminate)))
    as (_ & _ & _ & Hsid & _ & Happ & _ & _ & _ & Hsrc & _).
  split; [ exact Hsid | ]. split; [ exact (Happ eq_refl) | exact Hsrc ].
Defined.

(** C3.  When a chat request fails hard (a non-OK status, or an exception
    from the fetch), processing the failure appends no turn: messages,
    session id and conversation list are those found, and a non-empty error
    message is set.  With nothing else happening during the request, the
    message list of a first attempt is the previous one plus the user turn,
    and the session id is the one the request carried. *)
Theorem hard_failure_appends_nothing :
  forall (retry : bool) (iso : string) (st st1 : State) (req : ChatRequest.t)
         (o : FetchOutcome),
    handleSubmit_send retry iso st = Some (st1, req) ->
    isFailure o = true ->
    (forall st', let st2 := handleSubmit_settle retry o st' in
       messages st2 = messages st'
       /\ sessionId st2 = sessionId st'
       /\ conversations st2 = conversations st'
       /\ isLoading st2 = false
       /\ exists msg, error st2 = Some msg /\ msg <> ""%string)
    /\ messages (handleSubmit_settle retry o st1) = ChatRequest.messages req
    /\ (retry = false ->
        messages (handleSubmit_settle retry o st1)
          = messages st ++ [newUserMessage iso st])
    /\ sessionId (handleSubmit_settle retry o st1) = sessionId st
    /\ ChatRequest.session_id req = sessionId st.
Proof.
  intros retry iso st st1 req o Hsend Hfail.
  destruct (send_inv _ _ _ _ _ Hsend) as (Hreq & Hmsgs & Hsid & _).
  assert (Hframe : forall st', let st2 := handleSubmit_settle retry o st' in
       messages st2 = messages st'
       /\ sessionId st2 = sessionId st'
       /\ conversations st2 = conversations st'
       /\ isLoading st2 = false
       /\ exists msg, error st2 = Some msg /\ msg <> ""%string).
  { intros st' st2. subst st2.
    destruct (settle_failure retry o st' Hfail) as (err & _ & ->).
    destruct (reportFailure_frame err st') as (Hm & Hs & Hc & _).
    destruct (reportFailure_error err st') as (msg & He & Hne).
    simpl. repeat split; try assumption. exists msg. split; assumption. }
  split; [ exact Hframe | ].
  destruct (Hframe st1) as (Hm & Hs & _).
  subst req. simpl. rewrite Hm, Hs, Hmsgs, Hsid.
  repeat split; try reflexivity.
  intros ->. reflexivity.
Qed.

Lemma hard_failure_appends_nothing_witness :
  let st := setInput "hello" (initialState "t0") in
  exists st1 req,
    handleSubmit_send false "t1" st = Some (st1, req)
    /\ messages (handleSubmit_settle false (RespNotOk 503 "unavailable") st1)
       = [DEFAULT_ASSISTANT_MESSAGE "t0"; newUserMessage "t1" st]
    /\ sessionId (handleSubmit_settle false (RespNotOk 503 "unavailable") st1) = None.
Proof.
  intros st. eexists; eexists. split; [ apply send_not_blank; vm_compute; discriminate | ].
  pose proof (hard_failure_appends_nothing false "t1" st _ _ (RespNotOk 503 "unavailable")
                (send_not_blank "t1" st ltac:(vm_compute; discriminate)) eq_refl)
    as (_ & _ & Hm & Hs & _).
  split; [ exact (Hm eq_refl) | exact Hs ].
Defined.

(** C4.  The request carries the whole conversation: its messages are the
    message list on display once the handler has run, which on a first
    attempt is the previous list followed by the new user turn (role user,
    the trimmed input); and the request is a function of the history, the
    input, the session id and the locale alone. *)
Theorem request_carries_whole_history :
  forall (retry : bool) (iso : string) (st st1 : State) (req : ChatRequest.t),
    handleSubmit_send retry iso st = Some (st1, req) ->
    ChatRequest.messages req = messages st1
    /\ (retry = false ->
        ChatRequest.messages req = messages st ++ [newUserMessage iso st]
        /\ ChatMessage.role (newUserMessage iso st) = user
        /\ ChatMessage.content (newUserMessage iso st) = trim (input st))
    /\ (retry = true -> ChatRequest.messages req = messages st)
    /\ (forall st' st1' req',
          messages st' = messages st -> input st' = input st ->
          sessionId st' = sessionId st -> locale st' = locale st ->
          handleSubmit_send retry iso st' = Some (st1', req') -> req' = req).
Proof.
  intros retry iso st st1 req Hsend.
  destruct (send_inv _ _ _ _ _ Hsend) as (Hreq & Hmsgs & _).
  split; [ subst req; simpl; symmetry; exact Hmsgs | ].
  split; [ intros ->; subst req; repeat split; reflexivity | ].
  split; [ intros ->; subst req; reflexivity | ].
  intros st' st1' req' Hm Hi Hs Hl Hsend'.
  destruct (send_inv _ _ _ _ _ Hsend') as (Hreq' & _).
  subst req req'. unfold optimisticMessages, newUserMessage.
  rewrite Hm, Hi, Hs, Hl. reflexivity.
Qed.

Lemma request_carries_whole_history_witness :
  let st := setInput "  status of checkout?  " (initialState "t0") in
  exists st1 req,
    handleSubmit_send false "t1" st = Some (st1, req)
    /\ ChatRequest.messages req = messages st1
    /\ List.length (ChatRequest.messages req) = 2.
Proof.
  intros st. eexists; eexists. split; [ apply send_not_blank; vm_compute; discriminate | ].
  pose proof (request_carries_whole_history false "t1" st _ _
                (send_not_blank "t1" st ltac:(vm_compute; discriminate))) as (H1 & _).
  split; [ exact H1 | reflexivity ].
Defined.

(** ** Deadline and retries *)






Lemma findLast_snoc {A} (p : A -> bool) (l : list A) (x : A) :
  p x = true -> findLast p (l ++ [x]) = Some x.
Proof.
  intros H. unfold findLast. rewrite rev_app_distr. simpl. rewrite H. reflexivity.
Qed.


Lemma retry_send_inv (iso : string) (st st1 : State) (req : ChatRequest.t) :
  retryLastRequest_send iso st = Some (st1, req) ->
  retryCount st < maxRetries
  /\ (exists m, findLast (fun m => isUser (ChatMessage.role m)) (messages st) = Some m)
  /\ req = {| ChatRequest.session_id := sessionId st;
              ChatRequest.messages := messages st;
              ChatRequest.locale := locale st |}
  /\ messages st1 = messages st
  /\ sessionId st1 = sessionId st
  /\ retryCount st1 = retryCount st + 1.
Proof.
  unfold retryLastRequest_send.
  destruct (findLast _ (messages st)) as [m | ]; [ | discriminate ].
  destruct (Nat.ltb_spec (retryCount st) maxRetries) as [Hlt | Hge]; [ | discriminate ].
  rewrite send_retry. intros H. inversion H; subst; clear H.
  repeat split; try reflexivity; try assumption. exists m. reflexivity.
Qed.

Lemma retry_send_some (iso : string) (st : State) (m : ChatMessage.t) :
  findLast (fun m => isUser (ChatMessage.role m)) (messages st) = Some m ->
  retryCount st < maxRetries ->
  retryLastRequest_send iso st =
    Some (st |> setIsLoading true
             |> setError None
             |> setRetryCount (retryCount st + 1)
             |> setInput (ChatMessage.content m),
          {| ChatRequest.session_id := sessionId st;
             ChatRequest.messages := messages st;
             ChatRequest.locale := locale st |}).
Proof.
  intros Hm Hlt. unfold retryLastRequest_send. rewrite Hm.
  destruct (Nat.ltb_spec (retryCount st) maxRetries) as [_ | Hge]; [ | lia ].
  rewrite send_retry. reflexivity.
Qed.

(** The state after a first attempt that failed, nothing else happening
    meanwhile. *)
Lemma failed_attempt (abortMessage iso : string) (net : Network) (o : FetchOutcome)
    (st : State) :
  trim (input st) <> ""%string ->
  awaitFetch abortMessage net = Some o ->
  isFailure o = true ->
  let st1 := fst (handleSubmit abortMessage false iso net st) in
  snd (handleSubmit abortMessage false iso net st)
    = [ {| ChatRequest.session_id := sessionId st;
           ChatRequest.messages := messages st ++ [newUserMessage iso st];
           ChatRequest.locale := locale st |} ]
  /\ messages st1 = messages st ++ [newUserMessage iso st]
  /\ sessionId st1 = sessionId st
  /\ locale st1 = locale st
  /\ retryCount st1 = 0
  /\ exists msg, error st1 = Some msg /\ msg <> ""%string.
Proof.
  intros Hin Hnet Hfail st1. subst st1. unfold handleSubmit.
  rewrite (send_not_blank iso st Hin), Hnet. simpl fst. simpl snd. unfold resume.
  destruct (settle_failure false o
              (st |> setMessages (messages st ++ [newUserMessage iso st])
                  |> setInput "" |> setIsLoading true |> setError None
                  |> setRetryCount 0) Hfail) as (err & _ & ->).
  match goal with
  | |- context [reportFailure err ?s] =>
      destruct (reportFailure_frame err s) as (Hm & Hs & _ & _ & Hr & _ & Hl);
      destruct (reportFailure_error err s) as (msg & He & Hne)
  end.
  simpl. rewrite Hm, Hs, Hr, Hl. simpl.
  repeat split; try reflexivity. exists msg. split; assumption.
Qed.

Lemma user_turn_not_assistant (iso : string) (st : State) (data : ChatResponse.t) :
  newUserMessage iso st <> assistantMessage data.
Proof.
  intros H.
  assert (E : ChatMessage.sources (newUserMessage iso st)
              = ChatMessage.sources (assistantMessage data)) by (rewrite H; reflexivity).
  discriminate E.
Qed.

(** C8.  A successful retry replaces the last element of the message list
    by the assistant turn.  When that retry follows a failed first attempt,
    the last element is the user turn of that attempt: the list after the
    retry is the list from before the attempt followed by the assistant
    turn, and the user turn, unless it occurred before, is no longer in
    it. *)
Theorem retry_success_drops_user_turn :
  forall (abortMessage iso1 iso2 : string) (net1 net2 : Network)
         (failure : FetchOutcome) (data : ChatResponse.t) (st : State),
    trim (input st) <> ""%string ->
    awaitFetch abortMessage net1 = Some failure ->
    isFailure failure = true ->
    awaitFetch abortMessage net2 = Some (RespOk data) ->
    let failed := fst (handleSubmit abortMessage false iso1 net1 st) in
    let retried := fst (retryLastRequest abortMessage iso2 net2 failed) in
    (forall st', messages (handleSubmit_settle true (RespOk data) st')
                 = removelast (messages st') ++ [assistantMessage data])
    /\ messages failed = messages st ++ [newUserMessage iso1 st]
    /\ messages retried = removelast (messages failed) ++ [assistantMessage data]
    /\ messages retried = messages st ++ [assistantMessage data]
    /\ (~ In (newUserMessage iso1 st) (messages st) ->
        ~ In (newUserMessage iso1 st) (messages retried)).
Proof.
  intros abortMessage iso1 iso2 net1 net2 failure data st Hin Hnet Hfail Hok failed retried.
  destruct (failed_attempt abortMessage iso1 net1 failure st Hin Hnet Hfail)
    as (_ & Hm & _ & _ & Hr & _).
  fold failed in Hm, Hr.
  assert (Hretried : messages retried
                     = removelast (messages failed) ++ [assistantMessage data]).
  { subst retried. unfold retryLastRequest.
    rewrite (retry_send_some iso2 failed (newUserMessage iso1 st)).
    - rewrite Hok. reflexivity.
    - rewrite Hm. apply findLast_snoc. reflexivity.
    - rewrite Hr. unfold maxRetries. lia. }
  assert (Hfinal : messages retried = messages st ++ [assistantMessage data]).
  { rewrite Hretried, Hm, removelast_last. reflexivity. }
  split; [ reflexivity | ].
  split; [ exact Hm | ]. split; [ exact Hretried | ]. split; [ exact Hfinal | ].
  intros Hnot H. rewrite Hfinal in H. apply in_app_or in H.
  destruct H as [H | [H | []]]; [ exact (Hnot H) | ].
  exact (user_turn_not_assistant iso1 st data (eq_sym H)).
Qed.

Lemma retry_success_drops_user_turn_witness :
  let st := setInput "hello" (initialState "t0") in
  let failed := fst (handleSubmit "signal is aborted without reason" false "t1"
                       (Settles 120 (RespNotOk 503 "unavailable")) st) in
  let retried := fst (retryLastRequest "signal is aborted without reason" "t2"
                        (Settles 900 (RespOk sampleReply)) failed) in
  messages failed = [DEFAULT_ASSISTANT_MESSAGE "t0"; newUserMessage "t1" st]
  /\ messages retried = [DEFAULT_ASSISTANT_MESSAGE "t0"; assistantMessage sampleReply].
Proof.
  intros st failed retried.
  assert (Hin : trim (input st) <> ""%string) by (vm_compute; discriminate).
  assert (Hnet : awaitFetch "signal is aborted without reason"
                   (Settles 120 (RespNotOk 503 "unavailable"))
                 = Some (RespNotOk 503 "unavailable"))
    by reflexivity.
  assert (Hfail : isFailure (RespNotOk 503 "unavailable") = true) by reflexivity.
  assert (Hok : awaitFetch "signal is aborted without reason"
                  (Settles 900 (RespOk sampleReply)) = Some (RespOk sampleReply))
    by reflexivity.
  destruct (retry_success_drops_user_turn _ "t1" "t2" _ _ _ _ st Hin Hnet Hfail Hok)
    as (_ & Hm & _ & Hr & _).
  split; [ exact Hm | exact Hr ].
Defined.





(** The banner outlives [deleteConversation]: after a failed question in a
    new conversation, deleting that conversation opens the saved one with
    the banner still up, and Retry then resends the saved conversation, not
    the failed request. *)
Lemma retry_after_delete_resends_other_conversation :
  let opened := {| view := mount "t0" (Some [savedConversation]) 1000 "aaa" "i1";
                   inFlight := [] |} in
  let failed := run "t0"
                  [Typed "hello"; Submitted "t1"; Rendered "t1";
                   Settled 0 (RespNotOk 503 "unavailable")] opened in
  let deleted := run "t0" [Deleted false "conv-1000-aaa" 2000 "bbb" "i2"] failed in
  map ChatRequest.messages (snd (step "t0" (Submitted "t1") (run "t0" [Typed "hello"] opened)))
    = [[DEFAULT_ASSISTANT_MESSAGE "t0";
        newUserMessage "t1" (setInput "hello" (view opened))]]
  /\ retryOffered (view deleted) = true
  /\ currentConversationId (view deleted) = Some "conv-7-old"%string
  /\ map (fun req => (ChatRequest.session_id req, ChatRequest.messages req))
         (snd (step "t0" (RetryClicked "t3") deleted))
     = [(Conversation.sessionId savedConversation,
         Conversation.messages savedConversation)].
Proof.
  intros opened failed deleted. repeat split; reflexivity.
Qed.

(** ** The conversation list *)

Lemma optStringEqb_true (a : option string) (b : string) :
  optStringEqb a b = true <-> a = Some b.
Proof.
  destruct a as [v | ]; simpl.
  - rewrite String.eqb_eq. split; [ intros ->; reflexivity | intros H; inversion H; reflexivity ].
  - split; discriminate.
Qed.

Lemma hasId_true (convId : string) (c : Conversation.t) :
  hasId convId c = true <-> Conversation.id c = convId.
Proof. unfold hasId. apply String.eqb_eq. Qed.

Lemma hasId_false (convId : string) (c : Conversation.t) :
  hasId convId c = false <-> Conversation.id c <> convId.
Proof. unfold hasId. apply String.eqb_neq. Qed.

Lemma filter_keeps_all {A} (p : A -> bool) (l : list A) :
  (forall x, In x l -> p x = true) -> filter p l = l.
Proof.
  induction l as [ | x l IH]; intros H; simpl; [ reflexivity | ].
  rewrite (H x (or_introl eq_refl)). f_equal. apply IH.
  intros y Hy. apply H. right. exact Hy.
Qed.

(** With distinct ids, filtering an id out removes one element. *)
Lemma remove_by_id_split (convId : string) (l1 l2 : list Conversation.t)
    (c : Conversation.t) :
  Conversation.id c = convId ->
  NoDup (map Conversation.id (l1 ++ c :: l2)) ->
  filter (fun x => negb (hasId convId x)) (l1 ++ c :: l2) = l1 ++ l2.
Proof.
  intros Hid Hnd. rewrite map_app in Hnd. simpl in Hnd.
  pose proof (NoDup_remove_2 _ _ _ Hnd) as Hnotin.
  rewrite filter_app. simpl.
  assert (Hc : hasId convId c = true) by (apply hasId_true; exact Hid).
  rewrite Hc. simpl.
  rewrite !filter_keeps_all; [ reflexivity | | ];
    intros x Hx; apply negb_true_iff, hasId_false; intros Hx';
    apply Hnotin; rewrite Hid, <- Hx'; apply in_or_app;
    [ right | left ]; apply in_map; exact Hx.
Qed.

(** The sync effect rewrites the conversations carrying the current id, with
    the messages and session id on display, and no other. *)
Lemma syncConversations_frame (iso : string) (st : State) (c : Conversation.t) :
  In c (conversations st) ->
  optStringEqb (currentConversationId st) (Conversation.id c) = false ->
  In c (conversations (syncConversations iso st)).
Proof.
  intros Hin Hother. unfold syncConversations.
  destruct (truthy (currentConversationId st) && Nat.ltb 1 (List.length (messages st)));
    [ | exact Hin ].
  simpl. apply in_map_iff. exists c. rewrite Hother. split; [ reflexivity | exact Hin ].
Qed.

(** C9.  [deleteConversation] leaves in the list exactly the conversations
    whose id differs from the deleted one, unchanged and in order (with
    distinct ids: the list without that one element).  If the deleted
    conversation is not the current one, the open messages, the session id
    and the current id stay.  If it is the current one, the first remaining
    conversation becomes current with its messages and session id; when none
    remains, a new conversation holding the default greeting and no session
    id becomes current (the list then holds it alone, or is empty, by the
    order in which React applies the two updates). *)
Theorem deleteConversation_frame :
  forall (moduleLoadTime : string) (eager : bool) (convId : string) (now : N)
         (rnd iso : string) (st : State),
    let st' := deleteConversation moduleLoadTime eager convId now rnd iso st in
    let remaining := filter (fun c => negb (hasId convId c)) (conversations st) in
    (forall c, In c remaining <-> In c (conversations st) /\ Conversation.id c <> convId)
    /\ (forall l1 c l2,
          conversations st = l1 ++ c :: l2 -> Conversation.id c = convId ->
          NoDup (map Conversation.id (conversations st)) ->
          remaining = l1 ++ l2)
    /\ (currentConversationId st <> Some convId ->
          conversations st' = remaining
          /\ messages st' = messages st
          /\ sessionId st' = sessionId st
          /\ currentConversationId st' = currentConversationId st)
    /\ (currentConversationId st = Some convId ->
          forall next rest, remaining = next :: rest ->
          conversations st' = remaining
          /\ currentConversationId st' = Some (Conversation.id next)
          /\ messages st' = Conversation.messages next
          /\ sessionId st' = Conversation.sessionId next)
    /\ (currentConversationId st = Some convId ->
          remaining = [] ->
          conversations st'
            = (if eager then [] else [newConversation moduleLoadTime now rnd iso])
          /\ currentConversationId st' = Some (newConversationId now rnd)
          /\ messages st' = [DEFAULT_ASSISTANT_MESSAGE moduleLoadTime]
          /\ sessionId st' = None
          /\ Conversation.messages (newConversation moduleLoadTime now rnd iso)
             = [DEFAULT_ASSISTANT_MESSAGE moduleLoadTime]
          /\ Conversation.sessionId (newConversation moduleLoadTime now rnd iso) = None).
Proof.
  intros moduleLoadTime eager convId now rnd iso st st' remaining.
  split.
  { intros c. subst remaining. rewrite filter_In, negb_true_iff, hasId_false. tauto. }
  split.
  { intros l1 c l2 Hsplit Hid Hnd. subst remaining. rewrite Hsplit in *.
    apply remove_by_id_split; assumption. }
  split.
  { intros Hcur. subst st'. unfold deleteConversation.
    destruct (optStringEqb (currentConversationId st) convId) eqn:E.
    - apply optStringEqb_true in E. contradiction.
    - repeat split; reflexivity. }
  split.
  { intros Hcur next rest Hrem. subst st'. unfold deleteConversation.
    apply optStringEqb_true in Hcur. rewrite Hcur.
    fold remaining. rewrite Hrem. repeat split; reflexivity. }
  intros Hcur Hrem. subst st'. unfold deleteConversation.
  apply optStringEqb_true in Hcur. rewrite Hcur.
  fold remaining. rewrite Hrem. destruct eager; repeat split; reflexivity.
Qed.

Lemma deleteConversation_frame_witness :
  let st := initialState "t0"
              |> startNewChat "t0" 1000 "aaa" "i1"
              |> startNewChat "t0" 2000 "bbb" "i2" in
  let st' := deleteConversation "t0" false "conv-2000-bbb" 3000 "ccc" "i3" st in
  conversations st' = [newConversation "t0" 1000 "aaa" "i1"]
  /\ currentConversationId st' = Some "conv-1000-aaa"%string
  /\ messages st' = [DEFAULT_ASSISTANT_MESSAGE "t0"].
Proof.
  intros st st'.
  destruct (deleteConversation_frame "t0" false "conv-2000-bbb" 3000 "ccc" "i3" st)
    as (_ & _ & _ & Hcur & _).
  destruct (Hcur eq_refl (newConversation "t0" 1000 "aaa" "i1") [] eq_refl)
    as (Hc & Hi & Hm & _).
  split; [ exact Hc | ]. split; [ exact Hi | exact Hm ].
Defined.

(** *** Loading keeps the first conversation of each id *)

Lemma findIndexFrom_app_none {A} (p : A -> bool) (pre l : list A) (i : nat) :
  forallb (fun c => negb (p c)) pre = true ->
  findIndexFrom p (pre ++ l) i = findIndexFrom p l (i + List.length pre).
Proof.
  revert i. induction pre as [ | c pre IH]; intros i; simpl.
  - intros _. rewrite Nat.add_0_r. reflexivity.
  - intros H. apply andb_true_iff in H. destruct H as (Hc & Hpre).
    apply negb_true_iff in Hc. rewrite Hc, IH by exact Hpre.
    f_equal. lia.
Qed.

Lemma findIndexFrom_app_some {A} (p : A -> bool) (pre l : list A) (i : nat) :
  forallb (fun c => negb (p c)) pre = false ->
  exists k, findIndexFrom p (pre ++ l) i = Some k /\ k < i + List.length pre.
Proof.
  revert i. induction pre as [ | c pre IH]; intros i; simpl; [ discriminate | ].
  destruct (p c); simpl.
  - intros _. exists i. split; [ reflexivity | lia ].
  - intros H. destruct (IH (S i) H) as (k & Hk & Hlt).
    exists k. split; [ exact Hk | lia ].
Qed.

(** The callback of the load filter, at the element that follows [pre]. *)
Lemma first_index_iff_unseen (pre rest : list Conversation.t) (x : Conversation.t) :
  optNatEqb (List.length pre) (findIndex (sameId x) (pre ++ x :: rest)) = unseen pre x.
Proof.
  unfold findIndex, unseen.
  destruct (forallb (fun c => negb (sameId x c)) pre) eqn:E.
  - rewrite findIndexFrom_app_none by exact E. simpl.
    unfold sameId at 1. rewrite String.eqb_refl. simpl. apply Nat.eqb_refl.
  - destruct (findIndexFrom_app_some (sameId x) pre (x :: rest) 0 E) as (k & -> & Hlt).
    simpl. apply Nat.eqb_neq. lia.
Qed.

Lemma filterFrom_firstOccurrences (pre l : list Conversation.t) :
  filterFrom
    (fun conv index =>
       optNatEqb index
         (findIndex (fun c => Conversation.id c =? Conversation.id conv) (pre ++ l)))
    l (List.length pre)
  = firstOccurrences pre l.
Proof.
  revert pre. induction l as [ | x rest IH]; intros pre; simpl; [ reflexivity | ].
  change (fun c => Conversation.id c =? Conversation.id x)%string with (sameId x).
  rewrite first_index_iff_unseen.
  specialize (IH (pre ++ [x])).
  rewrite <- app_assoc, length_app in IH. simpl in IH.
  rewrite Nat.add_1_r in IH. rewrite IH.
  reflexivity.
Qed.

Lemma uniqueConvs_firstOccurrences (parsed : list Conversation.t) :
  uniqueConvs parsed = firstOccurrences [] parsed.
Proof.
  unfold uniqueConvs, filterIndexed. apply (filterFrom_firstOccurrences [] parsed).
Qed.

Lemma unseen_spec (pre : list Conversation.t) (x : Conversation.t) :
  unseen pre x = true <-> ~ In (Conversation.id x) (map Conversation.id pre).
Proof.
  unfold unseen. rewrite forallb_forall. split.
  - intros H Hin. apply in_map_iff in Hin. destruct Hin as (c & Hid & Hc).
    specialize (H c Hc). apply negb_true_iff in H. unfold sameId in H.
    apply String.eqb_neq in H. contradiction.
  - intros H c Hc. apply negb_true_iff. unfold sameId. apply String.eqb_neq.
    intros Hid. apply H. rewrite <- Hid. apply in_map. exact Hc.
Qed.

Lemma firstOccurrences_in (pre l : list Conversation.t) (y : Conversation.t) :
  In y (firstOccurrences pre l) ->
  In y l /\ ~ In (Conversation.id y) (map Conversation.id pre).
Proof.
  revert pre. induction l as [ | x rest IH]; intros pre; simpl; [ tauto | ].
  destruct (unseen pre x) eqn:E.
  - intros [-> | H].
    + split; [ left; reflexivity | apply unseen_spec; exact E ].
    + apply IH in H. destruct H as (Hin & Hnot). split; [ right; exact Hin | ].
      intros Hpre. apply Hnot. rewrite map_app. apply in_or_app. left. exact Hpre.
  - intros H. apply IH in H. destruct H as (Hin & Hnot). split; [ right; exact Hin | ].
    intros Hpre. apply Hnot. rewrite map_app. apply in_or_app. left. exact Hpre.
Qed.

Lemma firstOccurrences_NoDup (pre l : list Conversation.t) :
  NoDup (map Conversation.id (firstOccurrences pre l)).
Proof.
  revert pre. induction l as [ | x rest IH]; intros pre; simpl; [ constructor | ].
  destruct (unseen pre x); [ | apply IH ].
  simpl. constructor; [ | apply IH ].
  intros Hin. apply in_map_iff in Hin. destruct Hin as (y & Hid & Hy).
  apply firstOccurrences_in in Hy. destruct Hy as (_ & Hnot).
  apply Hnot. rewrite map_app. apply in_or_app. right. simpl. left. symmetry. exact Hid.
Qed.

Lemma firstOccurrences_find (convId : string) (pre l : list Conversation.t) :
  ~ In convId (map Conversation.id pre) ->
  find (hasId convId) (firstOccurrences pre l) = find (hasId convId) l.
Proof.
  revert pre. induction l as [ | x rest IH]; intros pre Hpre; simpl; [ reflexivity | ].
  destruct (hasId convId x) eqn:Hx.
  - apply hasId_true in Hx.
    assert (E : unseen pre x = true) by (apply unseen_spec; rewrite Hx; exact Hpre).
    rewrite E. simpl. apply hasId_true in Hx. rewrite Hx. reflexivity.
  - assert (Hpre' : ~ In convId (map Conversation.id (pre ++ [x]))).
    { rewrite map_app. intros H. apply in_app_or in H. destruct H as [H | [H | []]].
      - exact (Hpre H).
      - apply hasId_false in Hx. exact (Hx H). }
    destruct (unseen pre x); simpl; [ rewrite Hx | ]; apply IH; exact Hpre'.
Qed.

Lemma filter_drops_all {A} (p : A -> bool) (l : list A) :
  (forall x, In x l -> p x = false) -> filter p l = [].
Proof.
  induction l as [ | x l IH]; intros H; simpl; [ reflexivity | ].
  rewrite (H x (or_introl eq_refl)). apply IH.
  intros y Hy. apply H. right. exact Hy.
Qed.

Lemma filter_by_id_at_most_one (convId : string) (l : list Conversation.t) :
  NoDup (map Conversation.id l) -> List.length (filter (hasId convId) l) <= 1.
Proof.
  induction l as [ | x l IH]; simpl; intros Hnd; [ lia | ].
  inversion Hnd as [ | ? ? Hnotin Hnd']; subst.
  destruct (hasId convId x) eqn:Hx; [ | apply IH; exact Hnd' ].
  simpl. apply hasId_true in Hx.
  rewrite (filter_drops_all (hasId convId) l); [ simpl; lia | ].
  intros y Hy. apply hasId_false. intros Hid. apply Hnotin.
  rewrite Hx, <- Hid. apply in_map. exact Hy.
Qed.

Lemma map_ids_unchanged (f : Conversation.t -> Conversation.t) (l : list Conversation.t) :
  (forall c, Conversation.id (f c) = Conversation.id c) ->
  map Conversation.id (map f l) = map Conversation.id l.
Proof.
  intros H. rewrite map_map. apply map_ext. exact H.
Qed.

Lemma NoDup_filter_ids (p : Conversation.t -> bool) (l : list Conversation.t) :
  NoDup (map Conversation.id l) -> NoDup (map Conversation.id (filter p l)).
Proof.
  induction l as [ | x l IH]; simpl; intros Hnd; [ constructor | ].
  inversion Hnd as [ | ? ? Hnotin Hnd']; subst.
  destruct (p x); [ | apply IH; exact Hnd' ].
  simpl. constructor; [ | apply IH; exact Hnd' ].
  intros Hin. apply Hnotin. apply in_map_iff in Hin. destruct Hin as (y & Hid & Hy).
  apply filter_In in Hy. rewrite <- Hid. apply in_map. tauto.
Qed.

(** The ids of the list after the sync effect and after clearing. *)
Lemma syncConversations_ids (iso : string) (st : State) :
  map Conversation.id (conversations (syncConversations iso st))
  = map Conversation.id (conversations st).
Proof.
  unfold syncConversations.
  destruct (truthy (currentConversationId st) && Nat.ltb 1 (List.length (messages st)));
    [ | reflexivity ].
  simpl. apply map_ids_unchanged. intros c.
  destruct (optStringEqb (currentConversationId st) (Conversation.id c)); reflexivity.
Qed.

Lemma clearConversation_ids (moduleLoadTime : string) (st : State) :
  map Conversation.id (conversations (clearConversation moduleLoadTime st))
  = map Conversation.id (conversations st).
Proof.
  unfold clearConversation.
  destruct (truthy (currentConversationId st)); [ | reflexivity ].
  simpl. apply map_ids_unchanged. intros c.
  destruct (optStringEqb (currentConversationId st) (Conversation.id c)); reflexivity.
Qed.

(** C10, as the code has it.  The loaded list keeps, for each id, the first
    stored conversation of that id and no other, so its ids are pairwise
    distinct.  A new conversation takes the id built from the clock reading
    and the random digits, with no check against the list: the ids stay
    distinct when that id is not in the list already.  Deleting, clearing
    and syncing keep the ids distinct, and on a list of distinct ids an id
    addresses at most one conversation. *)
Theorem loaded_ids_distinct :
  forall (moduleLoadTime : string) (parsed : list Conversation.t) (st0 st : State)
         (eager : bool) (now : N) (rnd iso convId : string),
    NoDup (map Conversation.id (conversations st)) ->
    ~ In (newConversationId now rnd) (map Conversation.id (conversations st)) ->
    NoDup (map Conversation.id (uniqueConvs parsed))
    /\ (forall i, find (hasId i) (uniqueConvs parsed) = find (hasId i) parsed)
    /\ (forall c, In c (uniqueConvs parsed) -> In c parsed)
    /\ conversations (loadConversations (Some parsed) st0) = uniqueConvs parsed
    /\ NoDup (map Conversation.id
                (conversations (startNewChat moduleLoadTime now rnd iso st)))
    /\ NoDup (map Conversation.id
                (conversations
                   (deleteConversation moduleLoadTime eager convId now rnd iso st)))
    /\ NoDup (map Conversation.id (conversations (clearConversation moduleLoadTime st)))
    /\ NoDup (map Conversation.id (conversations (syncConversations iso st)))
    /\ conversations (switchConversation convId st) = conversations st
    /\ List.length (filter (hasId convId) (conversations st)) <= 1.
Proof.
  intros moduleLoadTime parsed st0 st eager now rnd iso convId Hnd Hfresh.
  split; [ rewrite uniqueConvs_firstOccurrences; apply firstOccurrences_NoDup | ].
  split.
  { intros i. rewrite uniqueConvs_firstOccurrences.
    apply firstOccurrences_find. simpl. tauto. }
  split.
  { intros c. rewrite uniqueConvs_firstOccurrences. intros H.
    apply firstOccurrences_in in H. tauto. }
  split.
  { unfold loadConversations. destruct (uniqueConvs parsed); reflexivity. }
  split.
  { simpl. constructor; assumption. }
  split.
  { unfold deleteConversation.
    pose proof (NoDup_filter_ids (fun c => negb (hasId convId c)) (conversations st) Hnd)
      as Hf.
    destruct (optStringEqb (currentConversationId st) convId); [ | exact Hf ].
    destruct (filter (fun c => negb (hasId convId c)) (conversations st)) eqn:E.
    - destruct eager; simpl; repeat constructor. simpl. tauto.
    - exact Hf. }
  split; [ rewrite clearConversation_ids; exact Hnd | ].
  split; [ rewrite syncConversations_ids; exact Hnd | ].
  split.
  { unfold switchConversation.
    destruct (find (hasId convId) (conversations st)); reflexivity. }
  apply filter_by_id_at_most_one. exact Hnd.
Qed.

Lemma loaded_ids_distinct_witness :
  let stored := [newConversation "t0" 1000 "aaa" "i1";
                 newConversation "t0" 2000 "bbb" "i2";
                 newConversation "t0" 1000 "aaa" "i3"] in
  let st := loadConversations (Some stored) (initialState "t0") in
  conversations st = [newConversation "t0" 1000 "aaa" "i1";
                      newConversation "t0" 2000 "bbb" "i2"]
  /\ NoDup (map Conversation.id
              (conversations (startNewChat "t0" 3000 "ccc" "i4" st))).
Proof.
  intros stored st.
  assert (Hst : conversations st = [newConversation "t0" 1000 "aaa" "i1";
                                    newConversation "t0" 2000 "bbb" "i2"])
    by reflexivity.
  assert (Hnd : NoDup (map Conversation.id (conversations st))).
  { rewrite Hst. simpl. repeat constructor; simpl; intuition discriminate. }
  assert (Hfresh : ~ In (newConversationId 3000 "ccc")
                       (map Conversation.id (conversations st))).
  { rewrite Hst. simpl. intuition discriminate. }
  destruct (loaded_ids_distinct "t0" stored (initialState "t0") st false 3000 "ccc" "i4"
              "conv-1000-aaa" Hnd Hfresh) as (_ & _ & _ & _ & Hnew & _).
  split; [ exact Hst | exact Hnew ].
Defined.

(** C10 as claimed fails: a new conversation created at the clock reading
    and with the random digits of an existing one repeats its id. *)
Lemma new_conversation_id_may_repeat :
  let st := startNewChat "t0" 1000 "aaa" "i1" (initialState "t0") in
  NoDup (map Conversation.id (conversations st))
  /\ ~ NoDup (map Conversation.id
                (conversations (startNewChat "t0" 1000 "aaa" "i2" st)))
  /\ List.length (filter (hasId "conv-1000-aaa")
                    (conversations (startNewChat "t0" 1000 "aaa" "i2" st))) = 2.
Proof.
  intros st. split.
  - simpl. repeat constructor. simpl. tauto.
  - split; [ | reflexivity ].
    simpl. intros H. inversion H as [ | ? ? Hnotin _]; subst.
    apply Hnotin. left. reflexivity.
Qed.

(** ** The session id *)

Lemma settle_sessionId (retry : bool) (o : FetchOutcome) (st : State) :
  sessionId (handleSubmit_settle retry o st)
  = match o with
    | RespOk data => Some (ChatResponse.session_id data)
    | _ => sessionId st
    end.
Proof.
  destruct o as [data | code text | err]; [ reflexivity | | ].
  - destruct (settle_failure retry (RespNotOk code text) st eq_refl) as (e & _ & ->).
    destruct (reportFailure_frame e st) as (_ & Hs & _). exact Hs.
  - destruct (settle_failure retry (Threw err) st eq_refl) as (e & _ & ->).
    destruct (reportFailure_frame e st) as (_ & Hs & _). exact Hs.
Qed.

Lemma resume_sessionId (retry : bool) (awaited : option FetchOutcome) (st : State) :
  sessionId (resume retry awaited st)
  = match awaited with
    | Some (RespOk data) => Some (ChatResponse.session_id data)
    | _ => sessionId st
    end.
Proof.
  destruct awaited as [o | ]; [ | reflexivity ].
  simpl. rewrite settle_sessionId. destruct o; reflexivity.
Qed.

(** A new or cleared conversation has no session id, and neither has the
    page once mounted; the first request sent from there carries none. *)
Lemma fresh_conversation_has_no_session
    (moduleLoadTime : string) (now : N) (rnd iso : string) (st : State)
    (saved : option (list Conversation.t)) :
  sessionId (startNewChat moduleLoadTime now rnd iso st) = None
  /\ sessionId (clearConversation moduleLoadTime st) = None
  /\ sessionId (mount moduleLoadTime saved now rnd iso) = None
  /\ (forall text retry iso' st1 req,
        handleSubmit_send retry iso'
          (setInput text (startNewChat moduleLoadTime now rnd iso st)) = Some (st1, req) ->
        ChatRequest.session_id req = None).
Proof.
  split; [ reflexivity | ]. split; [ reflexivity | ]. split; [ reflexivity | ].
  intros text retry iso' st1 req Hsend.
  destruct (send_inv _ _ _ _ _ Hsend) as (-> & _). reflexivity.
Qed.

(** When every turn is played to its end before the next starts, each
    request carries the session id of the latest successful response. *)
Lemma sequential_session_echo (abortMessage : string) (turns : list Turn) (st : State) :
  echoes (sessionId st) (play abortMessage turns st).
Proof.
  revert st. induction turns as [ | t rest IH]; intros st; simpl; [ exact I | ].
  destruct t as [text iso net | iso net]; simpl.
  - unfold handleSubmit.
    destruct (handleSubmit_send false iso (setInput text st)) as [[st1 req] | ] eqn:E;
      simpl; [ | apply (IH (setInput text st)) ].
    destruct (send_inv _ _ _ _ _ E) as (-> & _ & Hs & _). simpl.
    split; [ reflexivity | ].
    specialize (IH (resume false (awaitFetch abortMessage net) st1)).
    rewrite resume_sessionId, Hs in IH. simpl in IH. exact IH.
  - unfold retryLastRequest.
    destruct (retryLastRequest_send iso st) as [[st1 req] | ] eqn:E;
      simpl; [ | apply IH ].
    destruct (retry_send_inv _ _ _ _ E) as (_ & _ & -> & _ & Hs & _). simpl.
    split; [ reflexivity | ].
    specialize (IH (resume true (awaitFetch abortMessage net) st1)).
    rewrite resume_sessionId, Hs in IH. exact IH.
Qed.

(** A response processed after "New chat" stores its session id in the new
    conversation, whatever the state the request left from. *)
Lemma late_response_sets_session
    (moduleLoadTime : string) (now : N) (rnd iso iso' text : string)
    (data : ChatResponse.t) (inFlight : State) :
  trim text <> ""%string ->
  let opened := startNewChat moduleLoadTime now rnd iso inFlight in
  let answered := handleSubmit_settle false (RespOk data) opened in
  sessionId opened = None
  /\ currentConversationId answered = Some (newConversationId now rnd)
  /\ messages answered = [DEFAULT_ASSISTANT_MESSAGE moduleLoadTime; assistantMessage data]
  /\ exists st1 req,
       handleSubmit_send false iso' (setInput text answered) = Some (st1, req)
       /\ ChatRequest.session_id req = Some (ChatResponse.session_id data).
Proof.
  intros Htext opened answered.
  split; [ reflexivity | ]. split; [ reflexivity | ]. split; [ reflexivity | ].
  eexists; eexists. split; [ apply send_not_blank; exact Htext | reflexivity ].
Qed.

(** C5, at the failing run.  On a page opened on an empty storage a question
    is sent (without session id); "New chat" is clicked while the request is
    in flight, which opens a second conversation with no session id; the
    response then arrives and its session id is stored; the first request of
    the second conversation carries that session id. *)
Theorem first_request_after_late_response :
  forall moduleLoadTime : string,
    option_map (fun sent => ChatRequest.session_id (snd sent)) (askedInA moduleLoadTime)
      = Some None
    /\ option_map (fun st => (currentConversationId st, sessionId st, messages st))
         (openedB moduleLoadTime)
       = Some (Some "conv-2000-bbb"%string, None,
               [DEFAULT_ASSISTANT_MESSAGE moduleLoadTime])
    /\ option_map (fun st => (currentConversationId st, sessionId st))
         (answeredLate moduleLoadTime)
       = Some (Some "conv-2000-bbb"%string, Some "s1"%string)
    /\ option_map
         (fun st => map (fun c => (Conversation.id c, Conversation.sessionId c))
                        (conversations st))
         (answeredLate moduleLoadTime)
       = Some [("conv-2000-bbb"%string, Some "s1"%string);
               ("conv-1000-aaa"%string, None)]
    /\ option_map (fun sent => ChatRequest.session_id (snd sent)) (askedInB moduleLoadTime)
       = Some (Some "s1"%string).
Proof.
  intros moduleLoadTime. repeat split; reflexivity.
Qed.

(** ** The answer generator *)

Lemma validate_markers (ev : AnswerGenerator.EvidenceSet) (t : AnswerGenerator.AnswerText)
    (m : nat) :
  In m (AnswerGenerator.markersIn (AnswerGenerator.validate ev t)) <->
  In m (AnswerGenerator.markersIn t) /\ In m (map AnswerGenerator.marker ev).
Proof.
  unfold AnswerGenerator.markersIn, AnswerGenerator.validate.
  induction t as [ | s t IH]; simpl; [ tauto | ].
  destruct s as [str | k]; simpl.
  - exact IH.
  - destruct (AnswerGenerator.present ev k) eqn:E; simpl.
    + unfold AnswerGenerator.present in E. apply existsb_exists in E.
      destruct E as (k' & Hin & Hk). apply Nat.eqb_eq in Hk. subst k'.
      split.
      * intros [-> | H]; [ tauto | ]. apply IH in H. tauto.
      * intros ([-> | H] & Hev); [ tauto | ]. right. apply IH. tauto.
    + split.
      * intros H. apply IH in H. tauto.
      * intros ([-> | H] & Hev); [ | apply IH; tauto ].
        exfalso. unfold AnswerGenerator.present in E.
        assert (Hex : existsb (Nat.eqb m) (map AnswerGenerator.marker ev) = true)
          by (apply existsb_exists; exists m; split; [ exact Hev | apply Nat.eqb_refl ]).
        rewrite Hex in E. discriminate.
Qed.

(** C1.  Every citation marker in the text of a generated answer is a marker
    of the EvidenceSet it was generated from, whatever the model returned;
    so are the citations listed, and every source listed is the document of
    an evidence entry.  Validation introduces no marker and keeps the
    prose. *)
Theorem no_dangling_citations :
  forall (model : string -> list ChatMessage.t -> AnswerGenerator.EvidenceSet ->
                  string -> option AnswerGenerator.AnswerText)
         (query : string) (history : list ChatMessage.t)
         (ev : AnswerGenerator.EvidenceSet) (locale : string)
         (answer : AnswerGenerator.GroundedAnswer),
    AnswerGenerator.generate model query history ev locale = inl answer ->
    (forall m, In m (AnswerGenerator.markersIn (AnswerGenerator.text answer)) ->
               In m (map AnswerGenerator.marker ev))
    /\ (forall m, In m (AnswerGenerator.citations answer) ->
                  In m (map AnswerGenerator.marker ev))
    /\ (forall s, In s (AnswerGenerator.sources answer) ->
                  exists e, In e ev /\ AnswerGenerator.id (AnswerGenerator.hit e) = s)
    /\ (exists raw, model query history ev locale = Some raw
                    /\ AnswerGenerator.text answer = AnswerGenerator.validate ev raw
                    /\ (forall m, In m (AnswerGenerator.markersIn (AnswerGenerator.text answer)) ->
                                  In m (AnswerGenerator.markersIn raw))
                    /\ (forall p, In (AnswerGenerator.Prose p) raw ->
                                  In (AnswerGenerator.Prose p) (AnswerGenerator.text answer))).
Proof.
  intros model query history ev locale answer.
  unfold AnswerGenerator.generate.
  destruct (model query history ev locale) as [raw | ]; [ | discriminate ].
  intros H. inversion H; subst; clear H. simpl.
  split; [ intros m Hm; apply validate_markers in Hm; tauto | ].
  split; [ intros m Hm; apply nodup_In, validate_markers in Hm; tauto | ].
  split.
  { intros s Hs. unfold AnswerGenerator.sourcesOf in Hs.
    apply in_map_iff in Hs. destruct Hs as (e & Hid & He).
    apply filter_In in He. exists e. tauto. }
  exists raw. split; [ reflexivity | ]. split; [ reflexivity | ].
  split; [ intros m Hm; apply validate_markers in Hm; tauto | ].
  intros p Hp. unfold AnswerGenerator.validate. apply filter_In. tauto.
Qed.

Lemma no_dangling_citations_witness :
  exists answer,
    AnswerGenerator.generate fabricatingModel "What's the runbook for payment gateway timeouts?"
      [] sampleEvidence "en-US" = inl answer
    /\ AnswerGenerator.markersIn (AnswerGenerator.text answer) = [1]
    /\ forall m, In m (AnswerGenerator.markersIn (AnswerGenerator.text answer)) ->
                 In m (map AnswerGenerator.marker sampleEvidence).
Proof.
  eexists. split; [ reflexivity | ]. split; [ reflexivity | ].
  exact (proj1 (no_dangling_citations fabricatingModel
                  "What's the runbook for payment gateway timeouts?"
                  [] sampleEvidence "en-US" _ eq_refl)).
Defined.

(** * Further properties of the page *)

(** ** Loading, saving and mounting *)

Lemma firstOccurrences_distinct (pre l : list Conversation.t) :
  NoDup (map Conversation.id (pre ++ l)) -> firstOccurrences pre l = l.
Proof.
  revert pre. induction l as [ | x rest IH]; intros pre Hnd; simpl; [ reflexivity | ].
  assert (Hx : unseen pre x = true).
  { apply unseen_spec. rewrite map_app in Hnd. simpl in Hnd.
    apply NoDup_remove_2 in Hnd. intros Hin. apply Hnd. apply in_or_app. left. exact Hin. }
  rewrite Hx. f_equal. apply IH. rewrite <- app_assoc. exact Hnd.
Qed.

(** X1.  The load filter changes a stored list exactly when two of its
    conversations share an id, and filtering twice is filtering once. *)
Theorem uniqueConvs_fixpoint :
  forall parsed : list Conversation.t,
    (uniqueConvs parsed = parsed <-> NoDup (map Conversation.id parsed))
    /\ uniqueConvs (uniqueConvs parsed) = uniqueConvs parsed
    /\ List.length (uniqueConvs parsed) <= List.length parsed.
Proof.
  intros parsed.
  assert (Hfix : forall l, NoDup (map Conversation.id l) -> uniqueConvs l = l).
  { intros l Hnd. rewrite uniqueConvs_firstOccurrences.
    apply firstOccurrences_distinct. exact Hnd. }
  assert (Hnd : NoDup (map Conversation.id (uniqueConvs parsed)))
    by (rewrite uniqueConvs_firstOccurrences; apply firstOccurrences_NoDup).
  split; [ split; [ intros E; rewrite <- E; exact Hnd | apply Hfix ] | ].
  split; [ apply Hfix; exact Hnd | ].
  rewrite uniqueConvs_firstOccurrences. clear Hfix Hnd.
  generalize (@nil Conversation.t).
  induction parsed as [ | x rest IH]; intros pre; simpl; [ lia | ].
  destruct (unseen pre x); simpl; specialize (IH (pre ++ [x])); lia.
Qed.

Lemma find_by_own_id (l : list Conversation.t) (c : Conversation.t) :
  NoDup (map Conversation.id l) -> In c l ->
  find (hasId (Conversation.id c)) l = Some c.
Proof.
  induction l as [ | x l IH]; simpl; intros Hnd Hin; [ contradiction | ].
  inversion Hnd as [ | ? ? Hnotin Hnd']; subst.
  destruct Hin as [-> | Hin].
  - unfold hasId. rewrite String.eqb_refl. reflexivity.
  - destruct (hasId (Conversation.id c) x) eqn:E; [ | apply IH; assumption ].
    apply hasId_true in E. exfalso. apply Hnotin. rewrite E. apply in_map. exact Hin.
Qed.

(** X2.  An empty list is never written, so the storage keeps what it held.
    A list of distinct ids that was saved comes back at the next mount as
    it was, behind the conversation the mount creates and opens; each saved
    conversation can then be switched to and shows the messages and session
    id it was saved with, the new id being none of the saved ones. *)
Theorem save_then_mount :
  forall (moduleLoadTime : string) (st : State) (stored : option (list Conversation.t))
         (now : N) (rnd iso : string),
    (conversations st = [] -> saveConversations st stored = stored)
    /\ (conversations st <> [] ->
        NoDup (map Conversation.id (conversations st)) ->
        ~ In (newConversationId now rnd) (map Conversation.id (conversations st)) ->
        let reopened := mount moduleLoadTime (saveConversations st stored) now rnd iso in
        saveConversations st stored = Some (conversations st)
        /\ conversations reopened
           = newConversation moduleLoadTime now rnd iso :: conversations st
        /\ currentConversationId reopened = Some (newConversationId now rnd)
        /\ messages reopened = [DEFAULT_ASSISTANT_MESSAGE moduleLoadTime]
        /\ forall c, In c (conversations st) ->
             let shown := switchConversation (Conversation.id c) reopened in
             currentConversationId shown = Some (Conversation.id c)
             /\ messages shown = Conversation.messages c
             /\ sessionId shown = Conversation.sessionId c).
Proof.
  intros moduleLoadTime st stored now rnd iso. unfold saveConversations. split.
  - intros ->. reflexivity.
  - intros Hne Hnd Hfresh.
    destruct (conversations st) as [ | c0 l] eqn:E; [ contradiction | ].
    change (if Nat.ltb 0 (List.length (c0 :: l)) then Some (c0 :: l) else stored)
      with (Some (c0 :: l)).
    set (reopened := mount moduleLoadTime (Some (c0 :: l)) now rnd iso).
    assert (Hu : uniqueConvs (c0 :: l) = c0 :: l)
      by (rewrite uniqueConvs_firstOccurrences; apply firstOccurrences_distinct;
          exact Hnd).
    assert (Hlist : conversations reopened
                    = newConversation moduleLoadTime now rnd iso :: c0 :: l).
    { subst reopened. unfold mount, loadConversations. simpl. rewrite Hu. reflexivity. }
    split; [ reflexivity | ]. split; [ exact Hlist | ].
    split; [ reflexivity | ]. split; [ reflexivity | ].
    intros c Hc.
    assert (Hfind : find (hasId (Conversation.id c)) (conversations reopened) = Some c).
    { rewrite Hlist. simpl.
      destruct (hasId (Conversation.id c) (newConversation moduleLoadTime now rnd iso))
        eqn:Hid.
      - apply hasId_true in Hid. simpl in Hid. exfalso. apply Hfresh.
        rewrite Hid. apply in_map. exact Hc.
      - apply (find_by_own_id (c0 :: l) c Hnd Hc). }
    unfold switchConversation. rewrite Hfind. repeat split; reflexivity.
Qed.

Lemma save_then_mount_witness :
  let st := initialState "t0"
              |> startNewChat "t0" 1000 "aaa" "i1"
              |> startNewChat "t0" 2000 "bbb" "i2" in
  let reopened := mount "t0" (saveConversations st None) 3000 "ccc" "i3" in
  conversations reopened = newConversation "t0" 3000 "ccc" "i3" :: conversations st
  /\ currentConversationId (switchConversation "conv-1000-aaa" reopened)
     = Some "conv-1000-aaa"%string.
Proof.
  intros st reopened.
  assert (Hne : conversations st <> []) by discriminate.
  assert (Hnd : NoDup (map Conversation.id (conversations st))).
  { simpl. repeat constructor; simpl; intuition discriminate. }
  assert (Hfresh : ~ In (newConversationId 3000 "ccc")
                       (map Conversation.id (conversations st))).
  { simpl. intuition discriminate. }
  destruct (save_then_mount "t0" st None 3000 "ccc" "i3") as (_ & H).
  destruct (H Hne Hnd Hfresh) as (_ & Hlist & _ & _ & Hshow).
  split; [ exact Hlist | ].
  destruct (Hshow (newConversation "t0" 1000 "aaa" "i1")
              ltac:(right; left; reflexivity)) as (Hcur & _).
  exact Hcur.
Defined.

(** X3.  Mounting always opens a new conversation: the saved conversations,
    deduplicated, are kept behind it and none of them is the one on display;
    the list written back by the save effect is one longer than the list
    that was loaded. *)
Theorem mount_opens_new_conversation :
  forall (moduleLoadTime : string) (saved : option (list Conversation.t))
         (now : N) (rnd iso : string),
    let st := mount moduleLoadTime saved now rnd iso in
    let kept := match saved with Some parsed => uniqueConvs parsed | None => [] end in
    conversations st = newConversation moduleLoadTime now rnd iso :: kept
    /\ currentConversationId st = Some (newConversationId now rnd)
    /\ messages st = [DEFAULT_ASSISTANT_MESSAGE moduleLoadTime]
    /\ sessionId st = None
    /\ saveConversations st saved = Some (newConversation moduleLoadTime now rnd iso :: kept)
    /\ List.length (conversations st) = S (List.length kept).
Proof.
  intros moduleLoadTime saved now rnd iso st kept. subst st kept.
  unfold mount, loadConversations, saveConversations. simpl.
  destruct saved as [parsed | ]; [ destruct (uniqueConvs parsed) | ];
    repeat split; reflexivity.
Qed.

(** ** Switching, deleting and creating conversations *)

Lemma find_absent (convId : string) (l : list Conversation.t) :
  ~ In convId (map Conversation.id l) -> find (hasId convId) l = None.
Proof.
  intros Hnot. destruct (find (hasId convId) l) as [c | ] eqn:E; [ | reflexivity ].
  apply find_some in E. destruct E as (Hin & Hid). apply hasId_true in Hid.
  exfalso. apply Hnot. rewrite <- Hid. apply in_map. exact Hin.
Qed.

Lemma filter_out_absent (convId : string) (l : list Conversation.t) :
  ~ In convId (map Conversation.id l) ->
  filter (fun c => negb (hasId convId c)) l = l.
Proof.
  intros Hnot. apply filter_keeps_all. intros c Hc.
  apply negb_true_iff, hasId_false. intros Hid. apply Hnot.
  rewrite <- Hid. apply in_map. exact Hc.
Qed.

Lemma filtered_has_no_id (convId : string) (l : list Conversation.t) :
  ~ In convId (map Conversation.id (filter (fun c => negb (hasId convId c)) l)).
Proof.
  intros Hin. apply in_map_iff in Hin. destruct Hin as (c & Hid & Hc).
  apply filter_In in Hc. destruct Hc as (_ & Hneg).
  apply negb_true_iff, hasId_false in Hneg. contradiction.
Qed.

(** X4.  Switching to an id that no conversation carries changes nothing, and a
    deleted conversation cannot be switched to: once it is deleted, a click
    on its id leaves the page as it is (the id of the conversation created
    when none remains being another one). *)
Theorem deleted_conversation_is_gone :
  forall (moduleLoadTime : string) (eager : bool) (convId : string) (now : N)
         (rnd iso : string) (st : State),
    newConversationId now rnd <> convId ->
    let st' := deleteConversation moduleLoadTime eager convId now rnd iso st in
    find (hasId convId) (conversations st') = None
    /\ switchConversation convId st' = st'
    /\ (forall other, ~ In other (map Conversation.id (conversations st)) ->
                      switchConversation other st = st).
Proof.
  intros moduleLoadTime eager convId now rnd iso st Hnew st'.
  assert (Hgone : find (hasId convId) (conversations st') = None).
  { subst st'. unfold deleteConversation.
    pose proof (filtered_has_no_id convId (conversations st)) as Hf.
    destruct (optStringEqb (currentConversationId st) convId);
      [ | simpl; apply find_absent; exact Hf ].
    destruct (filter (fun c => negb (hasId convId c)) (conversations st)) eqn:E.
    - destruct eager; simpl; [ reflexivity | ].
      destruct (hasId convId (newConversation moduleLoadTime now rnd iso)) eqn:Hid;
        [ | reflexivity ].
      apply hasId_true in Hid. contradiction.
    - simpl conversations. apply find_absent. exact Hf. }
  split; [ exact Hgone | ].
  split; [ unfold switchConversation; rewrite Hgone; reflexivity | ].
  intros other Hnot. unfold switchConversation.
  rewrite (find_absent other (conversations st) Hnot). reflexivity.
Qed.

Lemma deleted_conversation_is_gone_witness :
  let st := initialState "t0"
              |> startNewChat "t0" 1000 "aaa" "i1"
              |> startNewChat "t0" 2000 "bbb" "i2" in
  let st' := deleteConversation "t0" false "conv-1000-aaa" 3000 "ccc" "i3" st in
  switchConversation "conv-1000-aaa" st' = st'.
Proof.
  intros st st'.
  assert (Hnew : newConversationId 3000 "ccc" <> "conv-1000-aaa"%string)
    by (vm_compute; discriminate).
  destruct (deleted_conversation_is_gone "t0" false "conv-1000-aaa" 3000 "ccc" "i3" st Hnew)
    as (_ & Hsw & _).
  exact Hsw.
Defined.

(** X5.  A new chat that is deleted again gives the list back as it was and
    opens its first conversation, provided the new id was not in use. *)
Theorem new_chat_then_delete :
  forall (moduleLoadTime : string) (eager : bool) (now now' : N)
         (rnd iso rnd' iso' : string) (st : State)
         (first : Conversation.t) (others : list Conversation.t),
    conversations st = first :: others ->
    ~ In (newConversationId now rnd) (map Conversation.id (conversations st)) ->
    let st' := st |> startNewChat moduleLoadTime now rnd iso
                  |> deleteConversation moduleLoadTime eager (newConversationId now rnd)
                       now' rnd' iso' in
    conversations st' = conversations st
    /\ currentConversationId st' = Some (Conversation.id first)
    /\ messages st' = Conversation.messages first
    /\ sessionId st' = Conversation.sessionId first.
Proof.
  intros moduleLoadTime eager now now' rnd iso rnd' iso' st first others Hlist Hfresh st'.
  subst st'.
  set (opened := startNewChat moduleLoadTime now rnd iso st).
  assert (Hcur : optStringEqb (currentConversationId opened) (newConversationId now rnd)
                 = true) by (apply optStringEqb_true; reflexivity).
  assert (Hfilt : filter (fun c => negb (hasId (newConversationId now rnd) c))
                         (conversations opened) = conversations st).
  { subst opened. simpl conversations. simpl filter.
    assert (Hid : hasId (newConversationId now rnd)
                        (newConversation moduleLoadTime now rnd iso) = true)
      by (apply hasId_true; reflexivity).
    rewrite Hid. simpl. apply filter_out_absent. exact Hfresh. }
  unfold deleteConversation. rewrite Hcur, Hfilt, Hlist.
  repeat split; reflexivity.
Qed.

Lemma new_chat_then_delete_witness :
  let st := initialState "t0" |> startNewChat "t0" 1000 "aaa" "i1" in
  let st' := st |> startNewChat "t0" 2000 "bbb" "i2"
                |> deleteConversation "t0" true "conv-2000-bbb" 3000 "ccc" "i3" in
  conversations st' = conversations st
  /\ currentConversationId st' = Some "conv-1000-aaa"%string.
Proof.
  intros st st'.
  assert (Hfresh : ~ In (newConversationId 2000 "bbb")
                       (map Conversation.id (conversations st))).
  { simpl. intuition discriminate. }
  destruct (new_chat_then_delete "t0" true 2000 3000 "bbb" "i2" "ccc" "i3" st
              (newConversation "t0" 1000 "aaa" "i1") [] eq_refl Hfresh)
    as (Hc & Hi & _).
  split; [ exact Hc | exact Hi ].
Defined.

(** ** The sync effect *)








Lemma find_hasId_map (convId : string) (f : Conversation.t -> Conversation.t)
    (l : list Conversation.t) :
  (forall c, Conversation.id (f c) = Conversation.id c) ->
  find (hasId convId) (map f l) = option_map f (find (hasId convId) l).
Proof.
  intros Hid. induction l as [ | x l IH]; simpl; [ reflexivity | ].
  unfold hasId at 1. rewrite Hid. fold (hasId convId x).
  destruct (hasId convId x); [ reflexivity | exact IH ].
Qed.

(** What the sync effect leaves under an id: the conversation found before,
    rewritten with the messages and session id on display when it carries
    the current id and the effect fires, untouched otherwise. *)
Lemma sync_find (iso convId : string) (st : State) (c : Conversation.t) :
  find (hasId convId) (conversations st) = Some c ->
  exists c',
    find (hasId convId) (conversations (syncConversations iso st)) = Some c'
    /\ Conversation.id c' = Conversation.id c
    /\ (truthy (currentConversationId st) = true ->
        1 < List.length (messages st) ->
        currentConversationId st = Some convId ->
        Conversation.messages c' = messages st
        /\ Conversation.sessionId c' = sessionId st)
    /\ (currentConversationId st <> Some convId -> c' = c).
Proof.
  intros Hfind.
  assert (Hidc : Conversation.id c = convId).
  { apply find_some in Hfind. apply hasId_true. tauto. }
  unfold syncConversations.
  destruct (truthy (currentConversationId st)) eqn:Ht; simpl;
    [ destruct (Nat.ltb_spec 1 (List.length (messages st))) as [Hlt | Hge] | ].
  - simpl. rewrite find_hasId_map, Hfind;
      [ | intros x; destruct (optStringEqb (currentConversationId st) (Conversation.id x));
          reflexivity ].
    simpl. eexists. split; [ reflexivity | ].
    destruct (optStringEqb (currentConversationId st) (Conversation.id c)) eqn:E.
    + split; [ reflexivity | ]. split; [ intros _ _ _; split; reflexivity | ].
      intros Hne. apply optStringEqb_true in E. rewrite Hidc in E. contradiction.
    + split; [ reflexivity | ]. split; [ | reflexivity ].
      intros _ _ Hcur. rewrite Hcur, Hidc in E. simpl in E.
      rewrite String.eqb_refl in E. discriminate.
  - exists c. split; [ exact Hfind | ]. split; [ reflexivity | ].
    split; [ intros _ Hlt; lia | reflexivity ].
  - exists c. split; [ exact Hfind | ]. split; [ reflexivity | ].
    split; [ intros H; discriminate | reflexivity ].
Qed.

Lemma switch_to_found (convId : string) (st : State) (c : Conversation.t) :
  find (hasId convId) (conversations st) = Some c ->
  switchConversation convId st
  = (st |> setCurrentConversationId (Some (Conversation.id c))
        |> setMessages (Conversation.messages c)
        |> setSessionId (Conversation.sessionId c)
        |> setError None
        |> setActionFeedback None).
Proof.
  intros H. unfold switchConversation. rewrite H. reflexivity.
Qed.

(** X7.  A conversation survives a visit elsewhere: with the open conversation
    [a] synced, switching to another id (present or not), letting the effect
    run, and switching back to [a] puts the same messages and session id on
    display. *)
Theorem switch_away_and_back :
  forall (iso1 iso2 a b : string) (st : State),
    currentConversationId st = Some a ->
    a <> ""%string ->
    1 < List.length (messages st) ->
    In a (map Conversation.id (conversations st)) ->
    a <> b ->
    let away := st |> syncConversations iso1
                   |> switchConversation b
                   |> syncConversations iso2 in
    let back := switchConversation a away in
    messages back = messages st
    /\ sessionId back = sessionId st
    /\ currentConversationId back = Some a.
Proof.
  intros iso1 iso2 a b st Hcur Hne Hlen Hin Hab away back.
  assert (Htruthy : truthy (currentConversationId st) = true).
  { rewrite Hcur. simpl. apply negb_true_iff, String.eqb_neq. exact Hne. }
  (* the record of [a] before anything happens *)
  destruct (find (hasId a) (conversations st)) as [c0 | ] eqn:Hc0.
  2:{ exfalso. apply in_map_iff in Hin. destruct Hin as (c & Hid & Hc).
      pose proof (find_none _ _ Hc0 c Hc) as Hno. apply hasId_false in Hno. contradiction. }
  (* after the first sync *)
  destruct (sync_find iso1 a st c0 Hc0) as (c1 & Hc1 & Hid1 & Hfields1 & _).
  destruct (Hfields1 Htruthy Hlen Hcur) as (Hm1 & Hs1).
  set (st1 := syncConversations iso1 st) in *.
  assert (Hst1 : messages st1 = messages st /\ sessionId st1 = sessionId st
                 /\ currentConversationId st1 = Some a).
  { subst st1. unfold syncConversations.
    destruct (truthy (currentConversationId st) && Nat.ltb 1 (List.length (messages st)));
      repeat split; assumption. }
  destruct Hst1 as (Hmsg1 & Hsid1 & Hcur1).
  (* after the switch to [b] *)
  set (st2 := switchConversation b st1) in *.
  assert (Hconv2 : conversations st2 = conversations st1).
  { subst st2. unfold switchConversation.
    destruct (find (hasId b) (conversations st1)); reflexivity. }
  assert (Hcase : (st2 = st1)
                  \/ currentConversationId st2 = Some b).
  { subst st2. unfold switchConversation.
    destruct (find (hasId b) (conversations st1)) as [cb | ] eqn:Hb; [ right | left; reflexivity ].
    apply find_some in Hb. destruct Hb as (_ & Hb). apply hasId_true in Hb.
    simpl. rewrite Hb. reflexivity. }
  assert (Hc2 : find (hasId a) (conversations st2) = Some c1) by (rewrite Hconv2; exact Hc1).
  (* after the second sync *)
  destruct (sync_find iso2 a st2 c1 Hc2) as (c3 & Hc3 & Hid3 & Hfields3 & Hsame3).
  assert (Hc3fields : Conversation.messages c3 = messages st
                      /\ Conversation.sessionId c3 = sessionId st
                      /\ Conversation.id c3 = a).
  { assert (Hida : Conversation.id c3 = a).
    { rewrite Hid3, Hid1. apply find_some in Hc0. apply hasId_true. tauto. }
    destruct Hcase as [E | Hb].
    - rewrite E in Hfields3.
      assert (Ht1 : truthy (currentConversationId st1) = true)
        by (rewrite Hcur1; simpl; apply negb_true_iff, String.eqb_neq; exact Hne).
      assert (Hl1 : 1 < List.length (messages st1)) by (rewrite Hmsg1; exact Hlen).
      destruct (Hfields3 Ht1 Hl1 Hcur1) as (Hm3 & Hs3).
      rewrite Hm3, Hs3, Hmsg1, Hsid1. repeat split; try reflexivity. exact Hida.
    - assert (Hother : currentConversationId st2 <> Some a).
      { rewrite Hb. intros H. inversion H. apply Hab. symmetry. assumption. }
      rewrite (Hsame3 Hother) in *. repeat split; assumption. }
  destruct Hc3fields as (Hm3 & Hs3 & Hida).
  subst back away. fold st1. fold st2.
  rewrite (switch_to_found a _ c3 Hc3). simpl.
  rewrite Hm3, Hs3, Hida. repeat split; reflexivity.
Qed.

Lemma switch_away_and_back_witness :
  let asked := initialState "t0"
                 |> startNewChat "t0" 1000 "aaa" "i1"
                 |> startNewChat "t0" 2000 "bbb" "i2"
                 |> setMessages [DEFAULT_ASSISTANT_MESSAGE "t0";
                                 assistantMessage sampleReply]
                 |> setSessionId (Some "s1"%string) in
  let away := asked |> syncConversations "i3"
                    |> switchConversation "conv-1000-aaa"
                    |> syncConversations "i4" in
  messages away = [DEFAULT_ASSISTANT_MESSAGE "t0"]
  /\ messages (switchConversation "conv-2000-bbb" away) = messages asked
  /\ sessionId (switchConversation "conv-2000-bbb" away) = Some "s1"%string.
Proof.
  intros asked away.
  assert (Hne : "conv-2000-bbb"%string <> ""%string) by discriminate.
  assert (Hlen : 1 < List.length (messages asked)) by (simpl; lia).
  assert (Hin : In "conv-2000-bbb"%string (map Conversation.id (conversations asked)))
    by (left; reflexivity).
  assert (Hab : "conv-2000-bbb"%string <> "conv-1000-aaa"%string) by discriminate.
  destruct (switch_away_and_back "i3" "i4" "conv-2000-bbb" "conv-1000-aaa" asked
              eq_refl Hne Hlen Hin Hab) as (Hm & Hs & _).
  split; [ reflexivity | ]. split; [ exact Hm | exact Hs ].
Defined.

(** ** Clearing *)

(** X8.  Clearing leaves the greeting alone on display with no session id and no
    error, and hides the Clear button; in the list it empties the
    conversations carrying the current id, keeping their title, and touches
    no other.  Clearing again or letting the sync effect run changes
    nothing more. *)
Theorem clearConversation_resets :
  forall (moduleLoadTime iso : string) (st : State),
    let st' := clearConversation moduleLoadTime st in
    messages st' = [DEFAULT_ASSISTANT_MESSAGE moduleLoadTime]
    /\ sessionId st' = None
    /\ error st' = None
    /\ clearOffered st' = false
    /\ clearConversation moduleLoadTime st' = st'
    /\ syncConversations iso st' = st'
    /\ Forall2
         (fun c c' =>
            Conversation.id c' = Conversation.id c
            /\ Conversation.title c' = Conversation.title c
            /\ (if truthy (currentConversationId st)
                   && optStringEqb (currentConversationId st) (Conversation.id c)
                then Conversation.messages c' = [DEFAULT_ASSISTANT_MESSAGE moduleLoadTime]
                     /\ Conversation.sessionId c' = None
                else c' = c))
         (conversations st) (conversations st').
Proof.
  intros moduleLoadTime iso st st'. subst st'.
  split; [ reflexivity | ]. split; [ reflexivity | ]. split; [ reflexivity | ].
  split; [ reflexivity | ].
  split.
  { unfold clearConversation.
    destruct (truthy (currentConversationId st)) eqn:Ht; simpl; rewrite Ht; simpl;
      [ | reflexivity ].
    rewrite map_map.
    rewrite map_ext
      with (g := fun conv =>
                   if optStringEqb (currentConversationId st) (Conversation.id conv)
                   then clearedConversation moduleLoadTime conv else conv);
      [ reflexivity | ].
    intros c.
    destruct (optStringEqb (currentConversationId st) (Conversation.id c)) eqn:E;
      simpl; rewrite E; reflexivity. }
  split.
  { unfold syncConversations. simpl. rewrite andb_false_r. reflexivity. }
  unfold clearConversation.
  destruct (truthy (currentConversationId st)); simpl.
  - induction (conversations st) as [ | c l IH]; simpl; constructor; [ | exact IH ].
    destruct (optStringEqb (currentConversationId st) (Conversation.id c));
      repeat split; reflexivity.
  - induction (conversations st) as [ | c l IH]; constructor; [ | exact IH ].
    repeat split; reflexivity.
Qed.

(** ** Expanding the sources of a message *)

Lemma setHas_app (k t : string) (s : list string) :
  setHas k (s ++ [t]) = setHas k s || (k =? t)%string.
Proof.
  unfold setHas. rewrite existsb_app. simpl. rewrite orb_false_r. reflexivity.
Qed.

Lemma setHas_delete (k t : string) (s : list string) :
  setHas k (setDelete t s) = negb (k =? t)%string && setHas k s.
Proof.
  unfold setHas, setDelete. induction s as [ | x s IH]; simpl.
  - rewrite andb_false_r. reflexivity.
  - destruct (String.eqb_spec x t) as [-> | Hxt]; simpl.
    + rewrite IH. destruct (String.eqb_spec k t); simpl; reflexivity.
    + rewrite IH. destruct (String.eqb_spec k x) as [-> | Hkx]; simpl.
      * destruct (String.eqb_spec x t); [ contradiction | reflexivity ].
      * reflexivity.
Qed.

(** X9.  Toggling a message's timestamp flips its membership in the expanded set
    and no other; toggling twice gives back the same members; and no member
    is ever listed twice. *)
Theorem toggleSourceExpansion_flips :
  forall (t : string) (s : list string),
    (forall k, setHas k (toggleSourceExpansion t s)
               = if (k =? t)%string then negb (setHas t s) else setHas k s)
    /\ (forall k, setHas k (toggleSourceExpansion t (toggleSourceExpansion t s))
                  = setHas k s)
    /\ (NoDup s -> NoDup (toggleSourceExpansion t s)).
Proof.
  intros t s.
  assert (Hflip : forall s' k, setHas k (toggleSourceExpansion t s')
                          = if (k =? t)%string then negb (setHas t s') else setHas k s').
  { intros s' k. unfold toggleSourceExpansion, setAdd.
    destruct (setHas t s') eqn:Ht; simpl.
    - rewrite setHas_delete. destruct (String.eqb_spec k t); reflexivity.
    - rewrite setHas_app. destruct (String.eqb_spec k t) as [-> | _]; simpl.
      + apply orb_true_r.
      + apply orb_false_r. }
  split; [ apply Hflip | ].
  split.
  { intros k. rewrite Hflip. destruct (String.eqb_spec k t) as [-> | Hkt].
    - rewrite Hflip, String.eqb_refl. apply negb_involutive.
    - rewrite Hflip. destruct (String.eqb_spec k t); [ contradiction | reflexivity ]. }
  intros Hnd. unfold toggleSourceExpansion, setAdd, setDelete.
  destruct (setHas t s) eqn:Ht.
  - apply NoDup_filter. exact Hnd.
  - apply NoDup_app; [ exact Hnd | repeat constructor; simpl; tauto | ].
    intros x Hx [<- | []]. unfold setHas in Ht.
    assert (Hex : existsb (String.eqb t) s = true)
      by (apply existsb_exists; exists t; split; [ exact Hx | apply String.eqb_refl ]).
    rewrite Hex in Ht. discriminate.
Qed.

Lemma toggleSourceExpansion_flips_witness :
  NoDup (toggleSourceExpansion "2025-01-01T00:00:04.000Z" ["2025-01-01T00:00:02.000Z"%string]).
Proof.
  apply (proj2 (proj2 (toggleSourceExpansion_flips "2025-01-01T00:00:04.000Z"
                         ["2025-01-01T00:00:02.000Z"%string]))).
  repeat constructor. simpl. tauto.
Defined.

(** ** What is sent as the user turn *)

Lemma trimStart_step (s : string) :
  trimStart s = match dropWhiteSpace s with Some r => trimStart r | None => s end.
Proof.
  destruct s as [ | c1 [ | c2 [ | c3 r3]]]; simpl; try reflexivity.
  - destruct (isWhiteSpace c1); reflexivity.
  - destruct (isWhiteSpace c1); [ reflexivity | ].
    destruct (isWhiteSpace2 c1 c2); reflexivity.
  - destruct (isWhiteSpace c1); [ reflexivity | ].
    destruct (isWhiteSpace2 c1 c2); [ reflexivity | ].
    destruct (isWhiteSpace3 c1 c2 c3); reflexivity.
Qed.

Lemma allWhiteSpace_step (s : string) :
  allWhiteSpace s
  = match s with
    | EmptyString => true
    | _ => match dropWhiteSpace s with Some r => allWhiteSpace r | None => false end
    end.
Proof.
  destruct s as [ | c1 [ | c2 [ | c3 r3]]]; simpl; try reflexivity.
  - destruct (isWhiteSpace c1); reflexivity.
  - destruct (isWhiteSpace c1); [ reflexivity | ].
    destruct (isWhiteSpace2 c1 c2); reflexivity.
  - destruct (isWhiteSpace c1); [ reflexivity | ].
    destruct (isWhiteSpace2 c1 c2); [ reflexivity | ].
    destruct (isWhiteSpace3 c1 c2 c3); reflexivity.
Qed.

Lemma dropWhiteSpace_shorter (s r : string) :
  dropWhiteSpace s = Some r -> String.length r < String.length s.
Proof.
  destruct s as [ | c1 [ | c2 [ | c3 r3]]]; simpl; try discriminate.
  - destruct (isWhiteSpace c1); intros H; inversion H; simpl; lia.
  - destruct (isWhiteSpace c1); [ intros H; inversion H; simpl; lia | ].
    destruct (isWhiteSpace2 c1 c2); intros H; inversion H; simpl; lia.
  - destruct (isWhiteSpace c1); [ intros H; inversion H; simpl; lia | ].
    destruct (isWhiteSpace2 c1 c2); [ intros H; inversion H; simpl; lia | ].
    destruct (isWhiteSpace3 c1 c2 c3); intros H; inversion H; simpl; lia.
Qed.

Lemma dropWhiteSpace_app (s r w : string) :
  dropWhiteSpace s = Some r -> dropWhiteSpace (s ++ w)%string = Some (r ++ w)%string.
Proof.
  destruct s as [ | c1 [ | c2 [ | c3 r3]]]; simpl; try discriminate.
  - destruct (isWhiteSpace c1); intros H; inversion H; reflexivity.
  - destruct (isWhiteSpace c1); [ intros H; inversion H; reflexivity | ].
    destruct (isWhiteSpace2 c1 c2); intros H; inversion H; reflexivity.
  - destruct (isWhiteSpace c1); [ intros H; inversion H; reflexivity | ].
    destruct (isWhiteSpace2 c1 c2); [ intros H; inversion H; reflexivity | ].
    destruct (isWhiteSpace3 c1 c2 c3); intros H; inversion H; reflexivity.
Qed.

Lemma by_length (P : string -> Prop) :
  (forall s, (forall r, String.length r < String.length s -> P r) -> P s) ->
  forall s, P s.
Proof.
  intros Hstep s.
  assert (H : forall n r, String.length r < n -> P r).
  { induction n as [ | n IH]; intros r Hr; [ lia | ].
    apply Hstep. intros r' Hr'. apply IH. lia. }
  apply (H (S (String.length s))). lia.
Qed.

Lemma trimStart_blank_iff (s : string) :
  trimStart s = ""%string <-> allWhiteSpace s = true.
Proof.
  induction s as [s IH] using by_length.
  rewrite trimStart_step, allWhiteSpace_step.
  destruct s as [ | c rest]; [ simpl; tauto | ].
  destruct (dropWhiteSpace (String c rest)) as [r | ] eqn:E.
  - apply IH. apply dropWhiteSpace_shorter. exact E.
  - split; discriminate.
Qed.

Lemma trimStart_no_lead (s : string) : dropWhiteSpace (trimStart s) = None.
Proof.
  induction s as [s IH] using by_length.
  rewrite trimStart_step.
  destruct (dropWhiteSpace s) as [r | ] eqn:E; [ | exact E ].
  apply IH. apply dropWhiteSpace_shorter. exact E.
Qed.

Lemma allWhiteSpace_trimStart (s : string) :
  allWhiteSpace (trimStart s) = allWhiteSpace s.
Proof.
  induction s as [s IH] using by_length.
  rewrite trimStart_step, (allWhiteSpace_step s).
  destruct (dropWhiteSpace s) as [r | ] eqn:E.
  - rewrite IH by (apply dropWhiteSpace_shorter; exact E).
    destruct s; [ discriminate E | reflexivity ].
  - rewrite (allWhiteSpace_step s), E. reflexivity.
Qed.

Lemma allWhiteSpace_app (s w : string) :
  allWhiteSpace s = true -> allWhiteSpace w = true -> allWhiteSpace (s ++ w)%string = true.
Proof.
  induction s as [s IH] using by_length. intros Hs Hw.
  destruct s as [ | c rest]; [ exact Hw | ].
  rewrite allWhiteSpace_step in Hs.
  destruct (dropWhiteSpace (String c rest)) as [r | ] eqn:E; [ | discriminate ].
  rewrite allWhiteSpace_step. simpl append.
  change (String c (rest ++ w)%string) with (String c rest ++ w)%string.
  rewrite (dropWhiteSpace_app _ _ w E).
  apply IH; [ apply dropWhiteSpace_shorter; exact E | exact Hs | exact Hw ].
Qed.

Lemma trimEnd_step (c : ascii) (rest : string) :
  trimEnd (String c rest)
  = if allWhiteSpace (String c (trimEnd rest)) then ""%string else String c (trimEnd rest).
Proof. reflexivity. Qed.

Lemma trimEnd_split (s : string) :
  exists w, s = (trimEnd s ++ w)%string /\ allWhiteSpace w = true.
Proof.
  induction s as [ | c rest (w & Hsplit & Hw)]; [ exists ""%string; split; reflexivity | ].
  rewrite trimEnd_step. destruct (allWhiteSpace (String c (trimEnd rest))) eqn:E.
  - exists (String c rest). split; [ reflexivity | ].
    rewrite Hsplit. change (String c (trimEnd rest ++ w)%string) with (String c (trimEnd rest) ++ w)%string.
    apply allWhiteSpace_app; assumption.
  - exists w. split; [ simpl; rewrite <- Hsplit; reflexivity | exact Hw ].
Qed.

Lemma trimEnd_again (s : string) : trimEnd (trimEnd s) = trimEnd s.
Proof.
  induction s as [ | c rest IH]; [ reflexivity | ].
  rewrite trimEnd_step.
  destruct (allWhiteSpace (String c (trimEnd rest))) eqn:E; [ reflexivity | ].
  rewrite trimEnd_step, IH, E. reflexivity.
Qed.

Lemma trim_blank_iff (s : string) :
  trim s = ""%string <-> allWhiteSpace s = true.
Proof.
  unfold trim. split.
  - intros H. destruct (trimEnd_split (trimStart s)) as (w & Hsplit & Hw).
    rewrite H in Hsplit. simpl in Hsplit.
    rewrite <- allWhiteSpace_trimStart, Hsplit. exact Hw.
  - intros H. apply trimStart_blank_iff in H. rewrite H. reflexivity.
Qed.

Lemma trim_again (s : string) : trim (trim s) = trim s.
Proof.
  unfold trim.
  assert (H : trimStart (trimEnd (trimStart s)) = trimEnd (trimStart s)).
  { rewrite trimStart_step.
    destruct (dropWhiteSpace (trimEnd (trimStart s))) as [r | ] eqn:E; [ | reflexivity ].
    exfalso. destruct (trimEnd_split (trimStart s)) as (w & Hsplit & _).
    pose proof (dropWhiteSpace_app _ _ w E) as Happ.
    rewrite <- Hsplit, trimStart_no_lead in Happ. discriminate. }
  rewrite H. apply trimEnd_again.
Qed.

(** X10.  An input made of white space only sends nothing and changes nothing
    (the submit button is disabled on it), any other input is sent; and the
    user turn that is sent carries the input without surrounding white
    space, never empty, while the text box is emptied.  White space is what
    [String.prototype.trim] strips: the white space and line terminators of
    ECMAScript, the no-break space and the other Unicode space separators
    among them. *)
Theorem user_turn_is_trimmed_input :
  forall (abortMessage iso : string) (net : Network) (st : State),
    (allWhiteSpace (input st) = true ->
       handleSubmit abortMessage false iso net st = (st, [])
       /\ submitDisabled st = true)
    /\ (allWhiteSpace (input st) = false ->
       exists st1 req,
         handleSubmit_send false iso st = Some (st1, req)
         /\ input st1 = ""%string
         /\ ChatRequest.messages req = messages st ++ [newUserMessage iso st]
         /\ ChatMessage.content (newUserMessage iso st) <> ""%string
         /\ trim (ChatMessage.content (newUserMessage iso st))
            = ChatMessage.content (newUserMessage iso st)).
Proof.
  intros abortMessage iso net st. split.
  - intros Hblank. apply trim_blank_iff in Hblank.
    unfold handleSubmit, handleSubmit_send, submitDisabled. rewrite Hblank. simpl.
    split; [ reflexivity | apply orb_true_r ].
  - intros Hsome.
    assert (Hne : trim (input st) <> ""%string).
    { intros E. apply trim_blank_iff in E. rewrite E in Hsome. discriminate. }
    eexists; eexists. split; [ apply send_not_blank; exact Hne | ].
    simpl. repeat split; try reflexivity; [ exact Hne | apply trim_again ].
Qed.

Lemma user_turn_is_trimmed_input_witness :
  let st := setInput "  status of checkout?  " (initialState "t0") in
  let noBreakSpace := String (ascii_of_N 194) (String (ascii_of_N 160) " ") in
  let blank := setInput noBreakSpace (initialState "t0") in
  ChatMessage.content (newUserMessage "t1" st) = "status of checkout?"%string
  /\ (exists st1 req, handleSubmit_send false "t1" st = Some (st1, req)
                      /\ input st1 = ""%string)
  /\ handleSubmit "signal is aborted without reason" false "t1" NeverSettles blank
     = (blank, []).
Proof.
  intros st noBreakSpace blank. split; [ reflexivity | ]. split.
  - destruct (user_turn_is_trimmed_input "signal is aborted without reason" "t1"
                NeverSettles st) as (_ & H).
    destruct (H eq_refl) as (st1 & req & Hsend & Hin & _).
    exists st1, req. split; [ exact Hsend | exact Hin ].
  - destruct (user_turn_is_trimmed_input "signal is aborted without reason" "t1"
                NeverSettles blank) as (H & _).
    destruct (H eq_refl) as (Hnone & _). exact Hnone.
Defined.

(** ** Failures, follow-ups and the Retry button *)





(** X12.  A follow-up action touches neither the conversation nor the session id
    nor the retry count.  When it succeeds the feedback line is the label
    and the message and the error banner, with its Retry button, is taken
    down, also the banner of an earlier failed chat request; when it fails
    the banner goes up with the Retry button of the chat, as long as fewer
    than 2 retries are counted. *)
Theorem handleFollowUp_effects :
  forall (a : FollowUpAction) (o : option ActionResponse) (st : State),
    let st' := handleFollowUp a o st in
    messages st' = messages st
    /\ sessionId st' = sessionId st
    /\ conversations st' = conversations st
    /\ currentConversationId st' = currentConversationId st
    /\ input st' = input st
    /\ retryCount st' = retryCount st
    /\ actionLoading st' = false
    /\ (forall data, o = Some data ->
          actionFeedback st' = Some (label a ++ ": " ++ message data)%string
          /\ error st' = None
          /\ retryOffered st' = false)
    /\ (o = None ->
          actionFeedback st' = None
          /\ error st' = Some "Follow-up action failed. Check logs and try again."%string
          /\ retryOffered st' = Nat.ltb (retryCount st) maxRetries).
Proof.
  intros a o st st'. subst st'.
  destruct o as [data | ].
  - do 7 (split; [ reflexivity | ]). split.
    + intros data' H. inversion H; subst. repeat split; reflexivity.
    + discriminate.
  - do 7 (split; [ reflexivity | ]). split.
    + discriminate.
    + intros _. repeat split; reflexivity.
Qed.

Lemma handleFollowUp_effects_witness :
  let action := {| label := "Post to Slack"; action := "slack_webhook"; payload := [] |} in
  let failed := setError (Some "Error: boom"%string) (initialState "t0") in
  retryOffered failed = true
  /\ retryOffered (handleFollowUp action (Some {| status := "ok"; message := "sent" |})
                     failed) = false.
Proof.
  intros action failed. split; [ reflexivity | ].
  destruct (handleFollowUp_effects action (Some {| status := "ok"; message := "sent" |})
              failed) as (_ & _ & _ & _ & _ & _ & _ & H & _).
  destruct (H _ eq_refl) as (_ & _ & Hoff). exact Hoff.
Defined.

Lemma settle_input (retry : bool) (o : FetchOutcome) (st : State) :
  input (handleSubmit_settle retry o st) = input st.
Proof.
  destruct o as [data | code text | err]; [ reflexivity | | ].
  - destruct (settle_failure retry (RespNotOk code text) st eq_refl) as (e & _ & ->).
    destruct (reportFailure_frame e st) as (_ & _ & _ & _ & _ & Hi & _). exact Hi.
  - destruct (settle_failure retry (Threw err) st eq_refl) as (e & _ & ->).
    destruct (reportFailure_frame e st) as (_ & _ & _ & _ & _ & Hi & _). exact Hi.
Qed.

(** X13.  The Retry button acts on the chat whatever raised the banner: after a
    failed follow-up it resends the conversation as it stands and, when the
    answer comes, puts it in the place of the last message.  After any
    retry the text box holds the last user message, whatever the outcome. *)
Theorem retry_after_failed_follow_up :
  forall (abortMessage iso : string) (net : Network) (a : FollowUpAction)
         (st : State) (lastUser : ChatMessage.t),
    findLast (fun m => isUser (ChatMessage.role m)) (messages st) = Some lastUser ->
    retryCount st < maxRetries ->
    let failed := handleFollowUp a None st in
    let retried := retryLastRequest abortMessage iso net failed in
    retryOffered failed = true
    /\ snd retried = [ {| ChatRequest.session_id := sessionId st;
                          ChatRequest.messages := messages st;
                          ChatRequest.locale := locale st |} ]
    /\ input (fst retried) = ChatMessage.content lastUser
    /\ (forall data, awaitFetch abortMessage net = Some (RespOk data) ->
          messages (fst retried) = removelast (messages st) ++ [assistantMessage data]).
Proof.
  intros abortMessage iso net a st lastUser Hlast Hlt failed retried.
  assert (Hsend : retryLastRequest_send iso failed
                  = Some (failed |> setIsLoading true
                                 |> setError None
                                 |> setRetryCount (retryCount failed + 1)
                                 |> setInput (ChatMessage.content lastUser),
                          {| ChatRequest.session_id := sessionId failed;
                             ChatRequest.messages := messages failed;
                             ChatRequest.locale := locale failed |}))
    by (apply retry_send_some; [ exact Hlast | exact Hlt ]).
  split.
  { unfold retryOffered. simpl. apply Nat.ltb_lt. exact Hlt. }
  subst retried. unfold retryLastRequest. rewrite Hsend. simpl fst. simpl snd.
  split; [ reflexivity | ].
  split; [ destruct (awaitFetch abortMessage net); simpl;
           [ rewrite settle_input | ]; reflexivity | ].
  intros data ->. reflexivity.
Qed.

Lemma retry_after_failed_follow_up_witness :
  let action := {| label := "Post to Slack"; action := "slack_webhook"; payload := [] |} in
  let answered :=
    fst (handleSubmit "signal is aborted without reason" false "t1"
           (Settles 800 (RespOk sampleReply)) (setInput "hello" (initialState "t0"))) in
  let retried :=
    fst (retryLastRequest "signal is aborted without reason" "t2"
           (Settles 700 (RespOk sampleReply)) (handleFollowUp action None answered)) in
  List.length (messages answered) = 3
  /\ messages retried
     = [DEFAULT_ASSISTANT_MESSAGE "t0"; newUserMessage "t1" (setInput "hello" (initialState "t0"));
        assistantMessage sampleReply]
  /\ input retried = "hello"%string.
Proof.
  intros action answered retried.
  assert (Hlast : findLast (fun m => isUser (ChatMessage.role m)) (messages answered)
                  = Some (newUserMessage "t1" (setInput "hello" (initialState "t0"))))
    by reflexivity.
  assert (Hlt : retryCount answered < maxRetries) by (vm_compute; lia).
  destruct (retry_after_failed_follow_up "signal is aborted without reason" "t2"
              (Settles 700 (RespOk sampleReply)) action answered _ Hlast Hlt)
    as (_ & _ & Hin & Hm).
  split; [ reflexivity | ]. split; [ exact (Hm sampleReply eq_refl) | exact Hin ].
Defined.

(** ** Invariants of the page *)

Lemma settle_retryCount (retry : bool) (o : FetchOutcome) (st : State) :
  retryCount (handleSubmit_settle retry o st)
  = match o with RespOk _ => 0 | _ => retryCount st end.
Proof.
  destruct o as [data | code text | err]; [ reflexivity | | ].
  - destruct (settle_failure retry (RespNotOk code text) st eq_refl) as (e & _ & ->).
    destruct (reportFailure_frame e st) as (_ & _ & _ & _ & Hr & _). exact Hr.
  - destruct (settle_failure retry (Threw err) st eq_refl) as (e & _ & ->).
    destruct (reportFailure_frame e st) as (_ & _ & _ & _ & Hr & _). exact Hr.
Qed.

Lemma step_retryCount (moduleLoadTime : string) (e : Event) (p : Page) :
  retryCount (view p) <= maxRetries ->
  retryCount (view (fst (step moduleLoadTime e p))) <= maxRetries.
Proof.
  intros H. destruct e; simpl.
  - exact H.
  - destruct (handleSubmit_send false iso (view p)) as [[st1 req] | ] eqn:E; simpl;
      [ | exact H ].
    destruct (send_inv _ _ _ _ _ E) as (_ & _ & _ & _ & _ & Hr & _). rewrite Hr. lia.
  - destruct (retryLastRequest_send iso (view p)) as [[st1 req] | ] eqn:E; simpl;
      [ | exact H ].
    destruct (retry_send_inv _ _ _ _ E) as (Hlt & _ & _ & _ & _ & Hr). rewrite Hr. lia.
  - destruct (nth_error (inFlight p) which) as [retry | ]; simpl; [ | exact H ].
    rewrite settle_retryCount. destruct o; lia.
  - exact H.
  - unfold switchConversation. destruct (find (hasId convId) (conversations (view p)));
      exact H.
  - unfold deleteConversation.
    destruct (optStringEqb (currentConversationId (view p)) convId); [ | exact H ].
    destruct (filter (fun c => negb (hasId convId c)) (conversations (view p)));
      [ destruct eager | ]; exact H.
  - unfold clearConversation. destruct (truthy (currentConversationId (view p))); exact H.
  - destruct o; exact H.
  - unfold syncConversations.
    destruct (truthy (currentConversationId (view p))
              && Nat.ltb 1 (List.length (messages (view p)))); exact H.
Qed.

(** X14.  Whatever the user does and however the requests in flight settle, the
    retry count stays within [maxRetries]: it starts at 0, a retry is sent
    only below 2 and raises it by one, a first attempt or a success resets
    it. *)
Theorem retryCount_never_exceeds_max :
  forall (moduleLoadTime : string) (events : list Event) (p : Page),
    retryCount (view p) <= maxRetries ->
    retryCount (view (run moduleLoadTime events p)) <= maxRetries
    /\ (forall now rnd iso,
          retryCount (view (run moduleLoadTime events
                              (mountedPage moduleLoadTime now rnd iso))) <= 2)
    /\ (forall iso req,
          In req (snd (step moduleLoadTime (RetryClicked iso) p)) ->
          retryCount (view p) < 2
          /\ retryCount (view (fst (step moduleLoadTime (RetryClicked iso) p)))
             = retryCount (view p) + 1).
Proof.
  intros moduleLoadTime events.
  assert (Hrun : forall p, retryCount (view p) <= maxRetries ->
                           retryCount (view (run moduleLoadTime events p)) <= maxRetries).
  { induction events as [ | e rest IH]; intros p H; simpl; [ exact H | ].
    apply IH, step_retryCount. exact H. }
  intros p H. split; [ apply Hrun; exact H | ].
  split.
  { intros now rnd iso. apply Hrun. simpl. unfold maxRetries. lia. }
  intros iso req Hin. simpl in *.
  destruct (retryLastRequest_send iso (view p)) as [[st1 r] | ] eqn:E; simpl in *;
    [ | contradiction ].
  destruct (retry_send_inv _ _ _ _ E) as (Hlt & _ & _ & _ & _ & Hr).
  split; [ exact Hlt | exact Hr ].
Qed.

Lemma retryCount_never_exceeds_max_witness :
  let down := RespNotOk 503 "unavailable" in
  let p := run "t0"
             [Typed "hello"; Submitted "t1"; Settled 0 down;
              RetryClicked "t2"; Settled 0 down;
              RetryClicked "t3"; Settled 0 down;
              RetryClicked "t4"; RetryClicked "t5"]
             (mountedPage "t0" 1000 "aaa" "i1") in
  retryCount (view p) = 2 /\ inFlight p = [] /\ retryCount (view p) <= maxRetries.
Proof.
  intros down p. split; [ reflexivity | ]. split; [ reflexivity | ].
  apply (proj1 (retryCount_never_exceeds_max "t0" _ (mountedPage "t0" 1000 "aaa" "i1")
                  ltac:(vm_compute; lia))).
Defined.

Lemma greeted_app (moduleLoadTime : string) (l l' : list ChatMessage.t) :
  greeted moduleLoadTime l -> greeted moduleLoadTime (l ++ l').
Proof.
  intros (rest & ->). exists (rest ++ l'). reflexivity.
Qed.

Lemma greeted_replace_last (moduleLoadTime : string) (l : list ChatMessage.t)
    (a : ChatMessage.t) :
  greeted moduleLoadTime l -> 2 <= List.length l ->
  greeted moduleLoadTime (removelast l ++ [a])
  /\ List.length (removelast l ++ [a]) = List.length l.
Proof.
  intros (rest & ->) Hlen. destruct rest as [ | x rest]; [ simpl in Hlen; lia | ].
  split.
  - exists (removelast (x :: rest) ++ [a]). reflexivity.
  - change (DEFAULT_ASSISTANT_MESSAGE moduleLoadTime :: x :: rest)
      with ([DEFAULT_ASSISTANT_MESSAGE moduleLoadTime] ++ x :: rest).
    rewrite removelast_app by discriminate.
    rewrite !length_app. simpl List.length at 1 3.
    assert (H : List.length (removelast (x :: rest)) + 1 = List.length (x :: rest)).
    { assert (Hne : x :: rest <> []) by discriminate.
      destruct (exists_last Hne) as (front & z & ->).
      rewrite removelast_last, length_app. reflexivity. }
    simpl List.length at 2. lia.
Qed.

Lemma greeted_with_user (moduleLoadTime : string) (l : list ChatMessage.t)
    (m : ChatMessage.t) :
  greeted moduleLoadTime l ->
  findLast (fun m => isUser (ChatMessage.role m)) l = Some m ->
  2 <= List.length l.
Proof.
  intros (rest & ->) H. destruct rest as [ | x rest]; [ discriminate H | simpl; lia ].
Qed.

Lemma in_dropNth {A} (x : A) (n : nat) (l : list A) :
  In x (dropNth n l) -> In x l.
Proof.
  revert n. induction l as [ | y l IH]; intros n; destruct n as [ | n]; simpl;
    try tauto.
  intros [-> | H]; [ left; reflexivity | right; exact (IH n H) ].
Qed.

Lemma settle_conversations (retry : bool) (o : FetchOutcome) (st : State) :
  conversations (handleSubmit_settle retry o st) = conversations st.
Proof.
  destruct o as [data | code text | err]; [ reflexivity | | ].
  - destruct (settle_failure retry (RespNotOk code text) st eq_refl) as (e & _ & ->).
    destruct (reportFailure_frame e st) as (_ & _ & Hc & _). exact Hc.
  - destruct (settle_failure retry (Threw err) st eq_refl) as (e & _ & ->).
    destruct (reportFailure_frame e st) as (_ & _ & Hc & _). exact Hc.
Qed.

Lemma settle_messages (retry : bool) (o : FetchOutcome) (st : State) :
  messages (handleSubmit_settle retry o st)
  = match o with
    | RespOk data =>
        if retry then removelast (messages st) ++ [assistantMessage data]
        else messages st ++ [assistantMessage data]
    | _ => messages st
    end.
Proof.
  destruct o as [data | code text | err]; [ reflexivity | | ].
  - destruct (settle_failure retry (RespNotOk code text) st eq_refl) as (e & _ & ->).
    destruct (reportFailure_frame e st) as (Hm & _). exact Hm.
  - destruct (settle_failure retry (Threw err) st eq_refl) as (e & _ & ->).
    destruct (reportFailure_frame e st) as (Hm & _). exact Hm.
Qed.

Lemma step_greetedPage (moduleLoadTime : string) (e : Event) (p : Page) :
  greetedPage moduleLoadTime p ->
  (changesConversation e = true -> inFlight p = []) ->
  greetedPage moduleLoadTime (fst (step moduleLoadTime e p)).
Proof.
  intros (Hmsg & Hall & Hretry) Hcalm.
  assert (Hnone : forall l : list bool, l = [] -> In true l -> False)
    by (intros l -> H; exact H).
  unfold greetedPage. destruct e; simpl.
  - (* Typed *)
    repeat split; assumption.
  - (* Submitted *)
    destruct (handleSubmit_send false iso (view p)) as [[st1 req] | ] eqn:E; simpl;
      [ | repeat split; assumption ].
    destruct (send_inv _ _ _ _ _ E) as (_ & Hm & _ & Hc & _).
    unfold optimisticMessages in Hm. rewrite Hm, Hc.
    split; [ apply greeted_app; exact Hmsg | ]. split; [ exact Hall | ].
    intros Hin. apply in_app_or in Hin.
    destruct Hin as [Hin | [Hin | []]]; [ | discriminate ].
    rewrite length_app. specialize (Hretry Hin). lia.
  - (* RetryClicked *)
    destruct (retryLastRequest_send iso (view p)) as [[st1 req] | ] eqn:E; simpl;
      [ | repeat split; assumption ].
    destruct (retry_send_inv _ _ _ _ E) as (Hlt & (m & Hm) & _).
    rewrite (retry_send_some iso (view p) m Hm Hlt) in E. inversion E; subst; clear E.
    simpl. split; [ exact Hmsg | ]. split; [ exact Hall | ].
    intros _. apply (greeted_with_user moduleLoadTime _ m Hmsg Hm).
  - (* Settled *)
    destruct (nth_error (inFlight p) which) as [retry | ] eqn:E; simpl;
      [ | repeat split; assumption ].
    rewrite settle_messages, settle_conversations.
    apply nth_error_In in E.
    destruct o as [data | code text | err].
    + destruct retry.
      * destruct (greeted_replace_last moduleLoadTime (messages (view p))
                    (assistantMessage data) Hmsg (Hretry E)) as (Hg & Hl).
        split; [ exact Hg | ]. split; [ exact Hall | ].
        intros _. rewrite Hl. exact (Hretry E).
      * split; [ apply greeted_app; exact Hmsg | ]. split; [ exact Hall | ].
        intros Hin. apply in_dropNth in Hin. rewrite length_app.
        specialize (Hretry Hin). lia.
    + split; [ exact Hmsg | ]. split; [ exact Hall | ].
      intros Hin. apply in_dropNth in Hin. exact (Hretry Hin).
    + split; [ exact Hmsg | ]. split; [ exact Hall | ].
      intros Hin. apply in_dropNth in Hin. exact (Hretry Hin).
  - (* NewChatClicked *)
    split; [ eexists; reflexivity | ].
    split; [ constructor; [ eexists; reflexivity | exact Hall ] | ].
    intros Hin. exfalso. exact (Hnone _ (Hcalm eq_refl) Hin).
  - (* Switched *)
    unfold switchConversation.
    destruct (find (hasId convId) (conversations (view p))) as [conv | ] eqn:E; simpl;
      [ | repeat split; assumption ].
    apply find_some in E. destruct E as (Hin & _).
    split; [ exact (proj1 (Forall_forall _ _) Hall conv Hin) | ].
    split; [ exact Hall | ].
    intros Hin'. exfalso. exact (Hnone _ (Hcalm eq_refl) Hin').
  - (* Deleted *)
    assert (Hfilt : Forall (fun c => greeted moduleLoadTime (Conversation.messages c))
                      (filter (fun c => negb (hasId convId c)) (conversations (view p)))).
    { apply Forall_forall. intros c Hc. apply filter_In in Hc.
      exact (proj1 (Forall_forall _ _) Hall c (proj1 Hc)). }
    unfold deleteConversation.
    destruct (optStringEqb (currentConversationId (view p)) convId).
    + destruct (filter (fun c => negb (hasId convId c)) (conversations (view p)))
        as [ | next rest] eqn:E.
      * destruct eager; simpl.
        -- split; [ eexists; reflexivity | ]. split; [ constructor | ].
           intros Hin. exfalso. exact (Hnone _ (Hcalm eq_refl) Hin).
        -- split; [ eexists; reflexivity | ].
           split; [ constructor; [ eexists; reflexivity | constructor ] | ].
           intros Hin. exfalso. exact (Hnone _ (Hcalm eq_refl) Hin).
      * simpl. inversion Hfilt as [ | ? ? Hnext Hrest]; subst.
        split; [ exact Hnext | ]. split; [ exact Hfilt | ].
        intros Hin. exfalso. exact (Hnone _ (Hcalm eq_refl) Hin).
    + simpl. split; [ exact Hmsg | ]. split; [ exact Hfilt | exact Hretry ].
  - (* Cleared *)
    unfold clearConversation.
    split; [ eexists; reflexivity | ].
    split; [ | intros Hin; exfalso; exact (Hnone _ (Hcalm eq_refl) Hin) ].
    destruct (truthy (currentConversationId (view p))); simpl; [ | exact Hall ].
    apply Forall_forall. intros c Hc. apply in_map_iff in Hc.
    destruct Hc as (c0 & <- & Hc0).
    destruct (optStringEqb (currentConversationId (view p)) (Conversation.id c0));
      [ eexists; reflexivity | exact (proj1 (Forall_forall _ _) Hall c0 Hc0) ].
  - (* FollowedUp *)
    destruct o; simpl; repeat split; assumption.
  - (* Rendered *)
    unfold syncConversations.
    destruct (truthy (currentConversationId (view p))
              && Nat.ltb 1 (List.length (messages (view p)))); simpl;
      [ | repeat split; assumption ].
    split; [ exact Hmsg | ]. split; [ | exact Hretry ].
    apply Forall_forall. intros c Hc. apply in_map_iff in Hc.
    destruct Hc as (c0 & <- & Hc0).
    destruct (optStringEqb (currentConversationId (view p)) (Conversation.id c0));
      [ exact Hmsg | exact (proj1 (Forall_forall _ _) Hall c0 Hc0) ].
Qed.

(** X15.  On a page opened on an empty storage, as long as the conversation on
    display is not changed, cleared or deleted while a request is in
    flight, the greeting stays the first message on display and in every
    stored conversation, and every request sent starts with it. *)
Theorem greeting_always_leads :
  forall (moduleLoadTime : string) (p : Page),
    Undisturbed moduleLoadTime p ->
    greeted moduleLoadTime (messages (view p))
    /\ Forall (fun c => greeted moduleLoadTime (Conversation.messages c))
              (conversations (view p))
    /\ (forall e req,
          In req (snd (step moduleLoadTime e p)) ->
          greeted moduleLoadTime (ChatRequest.messages req)).
Proof.
  intros moduleLoadTime p Hp.
  assert (Hinv : greetedPage moduleLoadTime p).
  { induction Hp as [now rnd iso | p e Hp IH Hcalm].
    - split; [ eexists; reflexivity | ].
      split; [ repeat constructor; eexists; reflexivity | intros [] ].
    - apply step_greetedPage; assumption. }
  destruct Hinv as (Hmsg & Hall & _).
  split; [ exact Hmsg | ]. split; [ exact Hall | ].
  intros e req Hin. destruct e; simpl in Hin; try contradiction.
  - destruct (handleSubmit_send false iso (view p)) as [[st1 r] | ] eqn:E;
      simpl in Hin; [ | contradiction ].
    destruct Hin as [<- | []].
    destruct (send_inv _ _ _ _ _ E) as (-> & _). simpl.
    apply greeted_app. exact Hmsg.
  - destruct (retryLastRequest_send iso (view p)) as [[st1 r] | ] eqn:E;
      simpl in Hin; [ | contradiction ].
    destruct Hin as [<- | []].
    destruct (retry_send_inv _ _ _ _ E) as (_ & _ & -> & _). exact Hmsg.
  - destruct (nth_error (inFlight p) which); simpl in Hin; contradiction.
Qed.

Lemma greeting_always_leads_witness :
  let p := fst (step "t0" (Submitted "t1")
                  (fst (step "t0" (Typed "hello") (mountedPage "t0" 1000 "aaa" "i1")))) in
  inFlight p = [false]
  /\ greeted "t0" (messages (view p))
  /\ List.length (messages (view p)) = 2.
Proof.
  intros p.
  assert (Hp : Undisturbed "t0" p).
  { subst p. apply undisturbed_step; [ apply undisturbed_step | ];
      [ apply undisturbed_mount | discriminate | discriminate ]. }
  destruct (greeting_always_leads "t0" p Hp) as (Hg & _).
  split; [ reflexivity | ]. split; [ exact Hg | reflexivity ].
Defined.

(** X16.  When every turn (a question typed and submitted, or a Retry click)
    is played to its end before the next starts, each request carries the
    session id of the latest success before it, the one stored at the start
    when there was none, and the session id stored at the end is that of the
    last success. *)
Theorem session_id_follows_last_success :
  forall (abortMessage : string) (turns : list Turn) (st : State),
    echoes (sessionId st) (play abortMessage turns st)
    /\ sessionId (playState abortMessage turns st)
       = sessionAfter (sessionId st) (play abortMessage turns st).
Proof.
  intros abortMessage turns. induction turns as [ | t rest IH]; intros st; simpl;
    [ split; [ exact I | reflexivity ] | ].
  destruct t as [text iso net | iso net]; simpl.
  - unfold handleSubmit.
    destruct (handleSubmit_send false iso (setInput text st)) as [[st1 req] | ] eqn:E;
      simpl; [ | apply (IH (setInput text st)) ].
    destruct (send_inv _ _ _ _ _ E) as (-> & _ & Hs & _). simpl.
    specialize (IH (resume false (awaitFetch abortMessage net) st1)).
    rewrite resume_sessionId, Hs in IH. simpl in IH.
    split; [ split; [ reflexivity | ] | ]; apply IH.
  - unfold retryLastRequest.
    destruct (retryLastRequest_send iso st) as [[st1 req] | ] eqn:E;
      simpl; [ | apply IH ].
    destruct (retry_send_inv _ _ _ _ E) as (_ & _ & -> & _ & Hs & _). simpl.
    specialize (IH (resume true (awaitFetch abortMessage net) st1)).
    rewrite resume_sessionId, Hs in IH.
    split; [ split; [ reflexivity | ] | ]; apply IH.
Qed.
